(** * gazr: head pose estimation (src/head_pose_estimation.cpp)

    A shallow embedding of [HeadPoseEstimation] and of the geometry it
    computes: the eye regions, the pupil normalisation, the lazily
    initialised optical centre, the projection matrix, the call of the
    rigid-pose solver, the assembled 4x4 pose and the gaze point of the
    debug build.

    Numbers.  C++ [int]/[long] values are integers of [Z]; pixel
    coordinates stay far below 2^31, so no wrap-around occurs.  C++
    [float]/[double] values are the type [float] below: an exact rational
    or one of the three non-finite IEEE values.  Rounding is not modelled:
    on the values the eye-region code handles (integers and their quarters,
    below 2^22 in magnitude) binary floating point is exact. *)

From Stdlib Require Import ZArith QArith Qround Qabs Lia.
From stdpp Require Import base option list.

Local Open Scope Z_scope.

(** ** Floating-point scalars *)

Inductive float : Type :=
| Fin (q : Q)
| PInf
| NInf
| NaN.

Definition is_finite (a : float) : bool :=
  match a with Fin _ => true | _ => false end.

Definition is_nan (a : float) : bool :=
  match a with NaN => true | _ => false end.

Definition Qlt_bool (a b : Q) : bool := negb (Qle_bool b a).

(** Conversion [int -> float]. *)
Definition int_to_float (z : Z) : float := Fin (inject_Z z).

(** Truncation toward zero of a rational. *)
Definition Qtrunc (q : Q) : Z := Z.quot (Qnum q) (Zpos (Qden q)).

Definition INT_MIN : Z := - 2 ^ 31.

(** Conversion [float -> int] ([static_cast<int>], also the implicit one of
    [int -= float]): truncation toward zero.  On a non-finite operand C++
    leaves the result undefined; x86 yields [INT_MIN]. *)
Definition float_to_int (a : float) : Z :=
  match a with
  | Fin q => Qtrunc q
  | _ => INT_MIN
  end.

(** [cvRound]: nearest integer, ties to even. *)
Definition Qround_even (q : Q) : Z :=
  let f := Qfloor q in
  match (q - inject_Z f ?= 1 # 2)%Q with
  | Lt => f
  | Gt => f + 1
  | Eq => if Z.even f then f else f + 1
  end.

Definition cvRound (a : float) : Z :=
  match a with
  | Fin q => Qround_even q
  | _ => INT_MIN
  end.

Definition fopp (a : float) : float :=
  match a with
  | Fin q => Fin (- q)
  | PInf => NInf
  | NInf => PInf
  | NaN => NaN
  end.

Definition fadd (a b : float) : float :=
  match a, b with
  | Fin p, Fin q => Fin (p + q)
  | NaN, _ | _, NaN => NaN
  | PInf, NInf | NInf, PInf => NaN
  | PInf, _ | _, PInf => PInf
  | NInf, _ | _, NInf => NInf
  end.

Definition fsub (a b : float) : float := fadd a (fopp b).

(** The sign an infinity takes when multiplied or divided by [q]; a zero is
    read as +0 where a division needs its sign. *)
Definition inf_signed (positive : bool) : float :=
  if positive then PInf else NInf.

Definition fmul (a b : float) : float :=
  match a, b with
  | Fin p, Fin q => Fin (p * q)
  | NaN, _ | _, NaN => NaN
  | Fin p, PInf | PInf, Fin p =>
      if Qeq_bool p 0 then NaN else inf_signed (Qle_bool 0 p)
  | Fin p, NInf | NInf, Fin p =>
      if Qeq_bool p 0 then NaN else inf_signed (negb (Qle_bool 0 p))
  | PInf, PInf | NInf, NInf => PInf
  | PInf, NInf | NInf, PInf => NInf
  end.

Definition fdiv (a b : float) : float :=
  match a, b with
  | NaN, _ | _, NaN => NaN
  | Fin p, Fin q =>
      if Qeq_bool q 0
      then if Qeq_bool p 0 then NaN else inf_signed (Qle_bool 0 p)
      else Fin (p / q)
  | Fin _, (PInf | NInf) => Fin 0
  | PInf, Fin q => inf_signed (Qle_bool 0 q)
  | NInf, Fin q => inf_signed (negb (Qle_bool 0 q))
  | (PInf | NInf), (PInf | NInf) => NaN
  end.

(** The C++ comparisons [<] and [==]; both are false on a NaN. *)
Definition flt (a b : float) : bool :=
  match a, b with
  | NaN, _ | _, NaN => false
  | Fin p, Fin q => Qlt_bool p q
  | PInf, _ | _, NInf => false
  | _, PInf | NInf, _ => true
  end.

Definition feqb (a b : float) : bool :=
  match a, b with
  | Fin p, Fin q => Qeq_bool p q
  | PInf, PInf | NInf, NInf => true
  | _, _ => false
  end.

(** [std::min(a, b)] is [(b < a) ? b : a], [std::max(a, b)] is
    [(a < b) ? b : a]. *)
Definition std_min (a b : float) : float := if flt b a then b else a.
Definition std_max (a b : float) : float := if flt a b then b else a.

Declare Scope float_scope.
Delimit Scope float_scope with F.
Bind Scope float_scope with float.
Infix "+" := fadd : float_scope.
Infix "-" := fsub : float_scope.
Infix "*" := fmul : float_scope.
Infix "/" := fdiv : float_scope.
Notation "- a" := (fopp a) : float_scope.

(** ** Points, rectangles, vectors and matrices *)

(** [cv::Point_<T>]: [cv::Point] at [Z], [cv::Point2f] at [float];
    [dlib::point] has [long] coordinates. *)
Record Point_ (T : Type) : Type := mkPoint { px : T; py : T }.
Arguments mkPoint {T} _ _.
Arguments px {T} _.
Arguments py {T} _.

Definition Point : Type := Point_ Z.
Definition Point2f : Type := Point_ float.
Definition dlib_point : Type := Point_ Z.

(** [cv::Rect], that is [cv::Rect_<int>]. *)
Record Rect : Type := mkRect { rx : Z; ry : Z; width : Z; height : Z }.

Record Point3f : Type := mkPoint3 { p3x : float; p3y : float; p3z : float }.

(** [cv::Vec3d], also the 3x1 [Mat_<double>] of [rvec] and [tvec]. *)
Record Vec3d : Type := mkVec3 { v0 : float; v1 : float; v2 : float }.

(** [cv::Matx<T, m, n>] keeps its entries in the row-major array [val];
    entry (i, j) of a matrix with [n] columns is [val[i * n + j]]. *)
Definition Matx : Type := list float.

Definition mat_at (n : nat) (m : Matx) (i j : nat) : float :=
  nth (i * n + j)%nat m (Fin 0).

Definition mat_set (n : nat) (m : Matx) (i j : nat) (v : float) : Matx :=
  <[(i * n + j)%nat := v]> m.

Definition Matx_zeros (rows cols : nat) : Matx := replicate (rows * cols) (Fin 0).

(** [cv::Mat] as an image or a mask: its size and its pixels. *)
Record Mat : Type := mkMat { rows : Z; cols : Z; pixels : list Z }.

Definition Mat_zeros (w h : Z) : Mat :=
  mkMat h w (replicate (Z.to_nat (h * w)) 0).

(** [toCv] and [toCvI] *)
Definition toCv (p : dlib_point) : Point2f :=
  mkPoint (int_to_float (px p)) (int_to_float (py p)).

Definition toCvI (p : dlib_point) : Point := mkPoint (px p) (py p).

(** The conversion [Point2f -> Point] of OpenCV ([saturate_cast<int>] on
    each coordinate). *)
Definition Point2f_to_Point (p : Point2f) : Point :=
  mkPoint (cvRound (px p)) (cvRound (py p)).

Definition Point_to_Point2f (p : Point) : Point2f :=
  mkPoint (int_to_float (px p)) (int_to_float (py p)).

Definition Point_sub (a b : Point) : Point :=
  mkPoint (px a - px b) (py a - py b).

Definition Point2f_add (a b : Point2f) : Point2f :=
  mkPoint (px a + px b)%F (py a + py b)%F.

Definition Point2f_sub (a b : Point2f) : Point2f :=
  mkPoint (px a - px b)%F (py a - py b)%F.

Definition Point2f_scale (a : Point2f) (k : float) : Point2f :=
  mkPoint (px a * k)%F (py a * k)%F.

(** [Rect_(pt1, pt2)], [tl()] and [br()] of [cv::Rect]. *)
Definition Rect_of_points (pt1 pt2 : Point) : Rect :=
  let x := Z.min (px pt1) (px pt2) in
  let y := Z.min (py pt1) (py pt2) in
  mkRect x y (Z.max (px pt1) (px pt2) - x) (Z.max (py pt1) (py pt2) - y).

Definition tl (r : Rect) : Point := mkPoint (rx r) (ry r).
Definition br (r : Rect) : Point := mkPoint (rx r + width r) (ry r + height r).

(** [dlib::rectangle], a detected face, and [dlib::full_object_detection],
    its landmark set; [part(i)] reads [parts[i]] with no bounds check, so an
    index past the end has no defined result. *)
Record rectangle : Type :=
  mkRectangle { r_left : Z; r_top : Z; r_right : Z; r_bottom : Z }.

Record full_object_detection : Type :=
  mkShape { get_rect : rectangle; parts : list dlib_point }.

Definition part (d : full_object_detection) (i : nat) : option dlib_point :=
  parts d !! i.

(** ** Declarations of head_pose_estimation.hpp

    The header is not among the sources.  The enumerators that
    head_pose_estimation.cpp names are the constructors below; their
    numeric values and the anthropometric points are parameters. *)

Inductive FACIAL_FEATURE : Type :=
| NOSE
| RIGHT_EYE
| LEFT_EYE
| RIGHT_SIDE
| LEFT_SIDE
| SELLION
| MOUTH_CENTER_TOP
| MOUTH_CENTER_BOTTOM
| MENTON.

Class Header : Type := {
  feature_index : FACIAL_FEATURE -> nat;
  P3D_SELLION : Point3f;
  P3D_RIGHT_EYE : Point3f;
  P3D_LEFT_EYE : Point3f;
  P3D_RIGHT_EAR : Point3f;
  P3D_LEFT_EAR : Point3f;
  P3D_MENTON : Point3f;
  P3D_NOSE : Point3f;
  P3D_STOMMION : Point3f
}.

(** [typedef cv::Matx44d head_pose]: sixteen entries, row-major. *)
Definition head_pose : Type := Matx.

(** ** The external collaborators *)

Inductive SolvePnPMethod : Type := ITERATIVE.

(** The arguments of one [cv::solvePnP] call; [noArray()] is [None]. *)
Record solvePnP_args : Type := mkSolvePnP {
  objectPoints : list Point3f;
  imagePoints : list Point2f;
  cameraMatrix : Matx;
  distCoeffs : option (list float);
  rvec_guess : Vec3d;
  tvec_guess : Vec3d;
  useExtrinsicGuess : bool;
  flags : SolvePnPMethod
}.

(** [solvePnP] updates [rvec] and [tvec] in place and returns whether it
    found a solution: the result is the flag and the two vectors after the
    call. *)
Class Collaborators : Type := {
  detector : Mat -> list rectangle;
  pose_model : Mat -> rectangle -> full_object_detection;
  fillConvexPoly : Mat -> list Point -> Mat;
  findEyeCenter : Mat -> Rect -> Mat -> Point2f;
  solvePnP : solvePnP_args -> bool * Vec3d * Vec3d;
  Rodrigues : Vec3d -> Matx;
  normalize : Vec3d -> Vec3d
}.

(** ** Eye regions *)

Definition EYE_ROI_ENLARGE_FACTOR : float := Fin 25.

(** The rectangle [Rect(Point2f(a.x, min(b.y, c.y)), Point2f(d.x, max(e.y, f.y)))]
    the code builds for each eye from six landmarks. *)
Definition eye_base_roi (a b c d e f : dlib_point) : Rect :=
  Rect_of_points
    (Point2f_to_Point
       (mkPoint (px (toCv a)) (std_min (py (toCv b)) (py (toCv c)))))
    (Point2f_to_Point
       (mkPoint (px (toCv d)) (std_max (py (toCv e)) (py (toCv f))))).

(** [roi.x -= margin; roi.y -= margin; roi.width += 2 * margin;
    roi.height += 2 * margin] with a [float] margin on [int] fields. *)
Definition enlarge (roi : Rect) (margin : float) : Rect :=
  mkRect
    (float_to_int (int_to_float (rx roi) - margin)%F)
    (float_to_int (int_to_float (ry roi) - margin)%F)
    (float_to_int (int_to_float (width roi) + int_to_float 2 * margin)%F)
    (float_to_int (int_to_float (height roi) + int_to_float 2 * margin)%F).

Definition eye_contour (roi : Rect) (l : list dlib_point) : list Point :=
  map (fun p => Point_sub (toCvI p) (tl roi)) l.

(** [eyesROI] (lines 77-118): for each eye the contour in the region's own
    coordinates and the enlarged region.  [None] stands for a landmark read
    past the end of the face's points. *)
Definition eyesROI (face : full_object_detection)
  : option (list Point * Rect * list Point * Rect) :=
  p36 ← part face 36; p37 ← part face 37; p38 ← part face 38;
  p39 ← part face 39; p40 ← part face 40; p41 ← part face 41;
  p42 ← part face 42; p43 ← part face 43; p44 ← part face 44;
  p45 ← part face 45; p46 ← part face 46; p47 ← part face 47;
  (* Left eye *)
  let leye_roi := eye_base_roi p36 p37 p38 p39 p40 p41 in
  let lmargin :=
    (EYE_ROI_ENLARGE_FACTOR / int_to_float 100 * int_to_float (width leye_roi))%F in
  let leye_roi := enlarge leye_roi lmargin in
  let leye := eye_contour leye_roi [p36; p37; p38; p39; p40; p41] in
  (* Right eye *)
  let reye_roi := eye_base_roi p42 p43 p44 p45 p46 p47 in
  let rmargin :=
    (EYE_ROI_ENLARGE_FACTOR / int_to_float 100 * int_to_float (width leye_roi))%F in
  let reye_roi := enlarge reye_roi rmargin in
  let reye := eye_contour reye_roi [p42; p43; p44; p45; p46; p47] in
  Some (leye, leye_roi, reye, reye_roi).

(** ** Pupil normalisation *)

(** Lines 149-152 (and 154-157): the normalisation of one pupil. *)
Definition pupil_relative (pupil : Point2f) (eye_roi : Rect) : Point2f :=
  let center := Point_to_Point2f (Point_sub (br eye_roi) (tl eye_roi)) in
  let rel := Point2f_sub pupil (Point2f_scale center (Fin 0.5)) in
  mkPoint (px rel / int_to_float (Z.quot (width eye_roi) 2))%F
          (py rel / int_to_float (Z.quot (height eye_roi) 2))%F.

Section Estimator.
Context `{H : Header} `{C : Collaborators}.

(** [Mat::zeros(roi.size(), CV_8UC1)] filled with the eye contour. *)
Definition eye_mask (roi : Rect) (contour : list Point) : Mat :=
  fillConvexPoly (Mat_zeros (width roi) (height roi)) contour.

Definition pupilsRelativePose (image : Mat) (face : full_object_detection)
  : option (Point2f * Point2f) :=
  '(left_eye, left_eye_roi, right_eye, right_eye_roi) ← eyesROI face;
  let left_mask := eye_mask left_eye_roi left_eye in
  let right_mask := eye_mask right_eye_roi right_eye in
  let left_pupil := findEyeCenter image left_eye_roi left_mask in
  let right_pupil := findEyeCenter image right_eye_roi right_mask in
  Some (pupil_relative left_pupil left_eye_roi,
        pupil_relative right_pupil right_eye_roi).

(** ** The estimator object *)

Record HeadPoseEstimation : Type := mkEstimator {
  focalLength : float;
  opticalCenterX : float;
  opticalCenterY : float;
  current_image : Mat;
  faces : list rectangle;
  shapes : list full_object_detection
}.

(** The constructor: the optical centre starts at the sentinel (-1, -1) and
    no face is stored. *)
Definition HeadPoseEstimation_new (focal : float) : HeadPoseEstimation :=
  mkEstimator focal (int_to_float (-1)) (int_to_float (-1))
              (mkMat 0 0 []) [] [].

Definition opticalCenter (s : HeadPoseEstimation) : float * float :=
  (opticalCenterX s, opticalCenterY s).

(** [update]: the optical centre is assigned under the test
    [opticalCenterX == -1]; then the faces and their landmark sets are
    replaced; last, the pupils of every shape are computed and dropped.  An
    out-of-range landmark read in that last loop leaves the call without a
    defined result ([None]). *)
Definition update (image : Mat) (s : HeadPoseEstimation)
  : option HeadPoseEstimation :=
  let '(cx, cy) :=
    if feqb (opticalCenterX s) (int_to_float (-1))
    then (int_to_float (Z.quot (cols image) 2),
          int_to_float (Z.quot (rows image) 2))
    else (opticalCenterX s, opticalCenterY s) in
  let faces' := detector image in
  let shapes' := pose_model image <$> faces' in
  _ ← mapM (pupilsRelativePose image) shapes';
  Some (mkEstimator (focalLength s) cx cy image faces' shapes').

(** A run of [update] calls, one per frame. *)
Fixpoint updates (images : list Mat) (s : HeadPoseEstimation)
  : option HeadPoseEstimation :=
  match images with
  | [] => Some s
  | image :: rest => s' ← update image s; updates rest s'
  end.

(** [coordsOf]: [toCv(shapes[face_idx].part(feature))], no bounds check on
    either index. *)
Definition coordsOf (s : HeadPoseEstimation) (face_idx : nat)
    (feature : FACIAL_FEATURE) : option Point2f :=
  shape ← shapes s !! face_idx;
  p ← part shape (feature_index feature);
  Some (toCv p).

(** Lines 250-256 of [pose]: the camera matrix. *)
Definition projection (s : HeadPoseEstimation) : Matx :=
  let projection := Matx_zeros 3 3 in
  let projection := mat_set 3 projection 0 0 (focalLength s) in
  let projection := mat_set 3 projection 1 1 (focalLength s) in
  let projection := mat_set 3 projection 0 2 (opticalCenterX s) in
  let projection := mat_set 3 projection 1 2 (opticalCenterY s) in
  mat_set 3 projection 2 2 (int_to_float 1).

(** Lines 258-297 of [pose]: the arguments handed to [solvePnP]. *)
Definition pose_solver_args (s : HeadPoseEstimation) (face_idx : nat)
  : option solvePnP_args :=
  let head_points :=
    [P3D_SELLION; P3D_RIGHT_EYE; P3D_LEFT_EYE; P3D_RIGHT_EAR; P3D_LEFT_EAR;
     P3D_MENTON; P3D_NOSE; P3D_STOMMION] in
  d0 ← coordsOf s face_idx SELLION;
  d1 ← coordsOf s face_idx RIGHT_EYE;
  d2 ← coordsOf s face_idx LEFT_EYE;
  d3 ← coordsOf s face_idx RIGHT_SIDE;
  d4 ← coordsOf s face_idx LEFT_SIDE;
  d5 ← coordsOf s face_idx MENTON;
  d6 ← coordsOf s face_idx NOSE;
  top ← coordsOf s face_idx MOUTH_CENTER_TOP;
  bot ← coordsOf s face_idx MOUTH_CENTER_BOTTOM;
  let stomion := Point2f_scale (Point2f_add top bot) (Fin 0.5) in
  let detected_points := [d0; d1; d2; d3; d4; d5; d6; stomion] in
  let tvec := mkVec3 (Fin 0) (Fin 0) (Fin 1000) in
  let rvec := mkVec3 (Fin 1.2) (Fin 1.2) (Fin (-1.2)) in
  Some (mkSolvePnP head_points detected_points (projection s) None
                   rvec tvec true ITERATIVE).

(** Lines 299-307 of [pose]: the 4x4 matrix built from [rvec] and [tvec]
    as [solvePnP] left them. *)
Definition assemble_pose (rvec tvec : Vec3d) : head_pose :=
  let rotation := Rodrigues rvec in
  let k := int_to_float 1000 in
  [ mat_at 3 rotation 0 0; mat_at 3 rotation 0 1; mat_at 3 rotation 0 2; (v0 tvec / k)%F;
    mat_at 3 rotation 1 0; mat_at 3 rotation 1 1; mat_at 3 rotation 1 2; (v1 tvec / k)%F;
    mat_at 3 rotation 2 0; mat_at 3 rotation 2 1; mat_at 3 rotation 2 2; (v2 tvec / k)%F;
    int_to_float 0; int_to_float 0; int_to_float 0; int_to_float 1 ].

(** [pose]: the value of [solvePnP] is dropped, [rvec] and [tvec] are used
    whatever it was.  [None] stands for an out-of-range landmark read. *)
Definition pose (s : HeadPoseEstimation) (face_idx : nat) : option head_pose :=
  args ← pose_solver_args s face_idx;
  let '(_, rvec, tvec) := solvePnP args in
  Some (assemble_pose rvec tvec).

(** [poses]: [pose(i)] for every [i < faces.size()]. *)
Definition poses (s : HeadPoseEstimation) : option (list head_pose) :=
  mapM (pose s) (seq 0 (length (faces s))).

End Estimator.

(** ** The gaze point (debug build of [pose], lines 337-344) *)

Definition Vec3d_sub (a b : Vec3d) : Vec3d :=
  mkVec3 (v0 a - v0 b)%F (v1 a - v1 b)%F (v2 a - v2 b)%F.

Definition Vec3d_add (a b : Vec3d) : Vec3d :=
  mkVec3 (v0 a + v0 b)%F (v1 a + v1 b)%F (v2 a + v2 b)%F.

Definition Vec3d_scale (k : float) (a : Vec3d) : Vec3d :=
  mkVec3 (v0 a * k)%F (v1 a * k)%F (v2 a * k)%F.

(** [Matx::dot]: [s = 0; s += val[i] * M.val[i]]. *)
Definition Vec3d_dot (a b : Vec3d) : float :=
  (Fin 0 + v0 a * v0 b + v1 a * v1 b + v2 a * v2 b)%F.

(** Row [i] of the product of a 4x4 matrix with a 4x1 one. *)
Definition Matx44_row_times (m : Matx) (v : Matx) (i : nat) : float :=
  (Fin 0 + mat_at 4 m i 0 * mat_at 1 v 0 0 + mat_at 4 m i 1 * mat_at 1 v 1 0
   + mat_at 4 m i 2 * mat_at 1 v 2 0 + mat_at 4 m i 3 * mat_at 1 v 3 0)%F.

Definition Matx44_mul_Vec4 (m : Matx) (v : Matx) : Matx :=
  map (Matx44_row_times m v) [0; 1; 2; 3]%nat.

Definition Matx44_col (m : Matx) (j : nat) : Matx :=
  map (fun i => mat_at 4 m i j) [0; 1; 2; 3]%nat.

(** The template [toVec3d]: [Vec3d(coords(0,0), coords(1,0), coords(2,0))]. *)
Definition toVec3d (coords : Matx) : Vec3d :=
  mkVec3 (mat_at 1 coords 0 0) (mat_at 1 coords 1 0) (mat_at 1 coords 2 0).

Definition Vec3d_finite (a : Vec3d) : bool :=
  is_finite (v0 a) && is_finite (v1 a) && is_finite (v2 a).

Section Gaze.
Context `{C : Collaborators}.

Definition gaze_origin (pose : head_pose) : Vec3d :=
  toVec3d (Matx44_col pose 3).

Definition gaze_direction (pose : head_pose) : Vec3d :=
  let P0 := gaze_origin pose in
  let V := Vec3d_sub
             (toVec3d (Matx44_mul_Vec4 pose [Fin 1; Fin 0; Fin 0; Fin 1])) P0 in
  normalize V.

Definition plane_normal : Vec3d := mkVec3 (Fin 0) (Fin 0) (Fin 1).

(** The point the debug build prints as the position of the gaze on the
    screen.  There is no test before the division and no other outcome. *)
Definition gaze_on_screen (pose : head_pose) : Vec3d :=
  let P0 := gaze_origin pose in
  let V := gaze_direction pose in
  let N := plane_normal in
  let t := (- (Vec3d_dot P0 N) / Vec3d_dot V N)%F in
  Vec3d_add P0 (Vec3d_scale t V).

End Gaze.

(** ** Sample data

    A header instance (the indices of the 68-point scheme, anthropometric
    points in millimetres), a 68-point landmark set and stand-ins for the
    collaborators, on which the definitions above are run. *)

Definition sample_feature_index (f : FACIAL_FEATURE) : nat :=
  match f with
  | NOSE => 30
  | RIGHT_EYE => 36
  | LEFT_EYE => 45
  | RIGHT_SIDE => 0
  | LEFT_SIDE => 16
  | SELLION => 27
  | MOUTH_CENTER_TOP => 62
  | MOUTH_CENTER_BOTTOM => 66
  | MENTON => 8
  end%nat.

Definition sample_header : Header := {|
  feature_index := sample_feature_index;
  P3D_SELLION := mkPoint3 (Fin 0) (Fin 0) (Fin 0);
  P3D_RIGHT_EYE := mkPoint3 (Fin (-20)) (Fin (-65.5)) (Fin (-5));
  P3D_LEFT_EYE := mkPoint3 (Fin (-20)) (Fin 65.5) (Fin (-5));
  P3D_RIGHT_EAR := mkPoint3 (Fin (-100)) (Fin (-77.5)) (Fin (-6));
  P3D_LEFT_EAR := mkPoint3 (Fin (-100)) (Fin 77.5) (Fin (-6));
  P3D_MENTON := mkPoint3 (Fin 0) (Fin 0) (Fin (-133));
  P3D_NOSE := mkPoint3 (Fin 21) (Fin 0) (Fin (-48));
  P3D_STOMMION := mkPoint3 (Fin 10) (Fin 0) (Fin (-75))
|}.

(** The left eye spans x = 100..111 (base width 11), the right eye
    x = 140..161 (base width 21); both span y = 97..103. *)
Definition sample_point (i : nat) : dlib_point :=
  match i with
  | 36%nat => mkPoint 100 100 | 37%nat => mkPoint 103 98 | 38%nat => mkPoint 107 97
  | 39%nat => mkPoint 111 100 | 40%nat => mkPoint 107 102 | 41%nat => mkPoint 103 103
  | 42%nat => mkPoint 140 100 | 43%nat => mkPoint 145 98 | 44%nat => mkPoint 152 97
  | 45%nat => mkPoint 161 100 | 46%nat => mkPoint 152 103 | 47%nat => mkPoint 145 102
  | _ => mkPoint (50 + 2 * Z.of_nat i) (60 + Z.of_nat i)
  end.

Definition sample_parts : list dlib_point := map sample_point (seq 0 68).

Definition sample_face : full_object_detection :=
  mkShape (mkRectangle 0 0 640 480) sample_parts.

Definition sample_image : Mat := mkMat 480 640 [].

(** A detector that reports the whole image as one face, a regressor that
    always answers [sample_parts], and a pupil locator that reports the
    middle of the right edge of the region it is given (in the region's own
    pixel coordinates). *)
Definition sample_detector (image : Mat) : list rectangle :=
  [mkRectangle 0 0 (cols image) (rows image)].

Definition sample_pose_model (image : Mat) (r : rectangle)
  : full_object_detection := mkShape r sample_parts.

Definition right_edge_locator (image : Mat) (roi : Rect) (mask : Mat) : Point2f :=
  mkPoint (int_to_float (width roi))
          (int_to_float (height roi) / int_to_float 2)%F.

(** A solver that converges to "one metre ahead, no rotation", and one that
    reports failure and leaves NaN in [tvec]. *)
Definition sample_solver (a : solvePnP_args) : bool * Vec3d * Vec3d :=
  (true, mkVec3 (Fin 0) (Fin 0) (Fin 0), mkVec3 (Fin 0) (Fin 0) (Fin 1000)).

Definition failing_solver (a : solvePnP_args) : bool * Vec3d * Vec3d :=
  (false, rvec_guess a, mkVec3 NaN NaN NaN).

(** The exponential map to first order, exact at the zero vector. *)
Definition Rodrigues_first_order (r : Vec3d) : Matx :=
  [ Fin 1; (- v2 r)%F; v1 r;
    v2 r; Fin 1; (- v0 r)%F;
    (- v1 r)%F; v0 r; Fin 1 ].

(** [cv::normalize] with its defaults: scale by [1 / norm] when the L2 norm
    exceeds [DBL_EPSILON], by 0 otherwise; the square root is exact on
    squares of rationals. *)
Definition Qsqrt (q : Q) : Q :=
  Z.sqrt (Qnum q * Zpos (Qden q)) # Qden q.

Definition fsqrt (a : float) : float :=
  match a with
  | Fin q => if Qlt_bool q 0 then NaN else Fin (Qsqrt q)
  | PInf => PInf
  | _ => NaN
  end.

Definition DBL_EPSILON : float := Fin (1 # 4503599627370496).

Definition sample_normalize (v : Vec3d) : Vec3d :=
  let norm := fsqrt (v0 v * v0 v + v1 v * v1 v + v2 v * v2 v)%F in
  let scale := if flt DBL_EPSILON norm then (Fin 1 / norm)%F else Fin 0 in
  Vec3d_scale scale v.

Definition sample_collaborators : Collaborators := {|
  detector := sample_detector;
  pose_model := sample_pose_model;
  fillConvexPoly := fun mask _ => mask;
  findEyeCenter := right_edge_locator;
  solvePnP := sample_solver;
  Rodrigues := Rodrigues_first_order;
  normalize := sample_normalize
|}.

Definition failing_collaborators : Collaborators := {|
  detector := sample_detector;
  pose_model := sample_pose_model;
  fillConvexPoly := fun mask _ => mask;
  findEyeCenter := right_edge_locator;
  solvePnP := failing_solver;
  Rodrigues := Rodrigues_first_order;
  normalize := sample_normalize
|}.

(** An estimator holding one face with [sample_parts] and an initialised
    optical centre. *)
Definition sample_estimator : HeadPoseEstimation :=
  mkEstimator (Fin 500) (Fin 320) (Fin 240) sample_image
              [mkRectangle 0 0 640 480] [sample_face].

(** A pose with no rotation, one metre along the camera's z axis: the
    head's x axis, the gaze direction, lies in the plane z = const. *)
Definition sideways_pose : head_pose :=
  [ Fin 1; Fin 0; Fin 0; Fin 0;
    Fin 0; Fin 1; Fin 0; Fin 0;
    Fin 0; Fin 0; Fin 1; Fin 1;
    Fin 0; Fin 0; Fin 0; Fin 1 ].

(** The base rectangles of the two eyes, before enlargement. *)
Definition left_eye_base (face : full_object_detection) : option Rect :=
  p36 ← part face 36; p37 ← part face 37; p38 ← part face 38;
  p39 ← part face 39; p40 ← part face 40; p41 ← part face 41;
  Some (eye_base_roi p36 p37 p38 p39 p40 p41).

Definition right_eye_base (face : full_object_detection) : option Rect :=
  p42 ← part face 42; p43 ← part face 43; p44 ← part face 44;
  p45 ← part face 45; p46 ← part face 46; p47 ← part face 47;
  Some (eye_base_roi p42 p43 p44 p45 p46 p47).

(** The contract of the landmark regressor: 68 points for every face. *)
Definition regressor_contract `{C : Collaborators} : Prop :=
  forall (image : Mat) (r : rectangle),
    length (parts (pose_model image r)) = 68%nat.

(** One 68-point landmark set per stored face: what every run of [update]
    calls establishes. *)
Definition aligned (s : HeadPoseEstimation) : Prop :=
  length (shapes s) = length (faces s) /\
  Forall (fun shape => length (parts shape) = 68%nat) (shapes s).

(** The test of [update] on the optical centre. *)
Definition center_unset (s : HeadPoseEstimation) : bool :=
  feqb (opticalCenterX s) (int_to_float (-1)).

(** ** Line intersection ([HeadPoseEstimation::intersection], lines 388-402) *)

(** [std::abs] on a [float]. *)
Definition fabs (a : float) : float :=
  match a with
  | Fin q => Fin (Qabs q)
  | PInf | NInf => PInf
  | NaN => NaN
  end.

(** The threshold [1e-8] of the test on the cross product. *)
Definition intersection_eps : float := Fin (1 # 100000000).

(** The cross product [d1.x * d2.y - d1.y * d2.x] of the two directions. *)
Definition intersection_cross (o1 p1 o2 p2 : Point2f) : float :=
  let d1 := Point2f_sub p1 o1 in
  let d2 := Point2f_sub p2 o2 in
  (px d1 * py d2 - py d1 * px d2)%F.

(** The lines are (o1, p1) and (o2, p2); the result is the returned flag and
    the content of the reference [r] after the call: [r] is written only on
    the path that returns [true]. *)
Definition intersection (o1 p1 o2 p2 : Point2f) (r : Point2f)
  : bool * Point2f :=
  let x := Point2f_sub o2 o1 in
  let d1 := Point2f_sub p1 o1 in
  let d2 := Point2f_sub p2 o2 in
  let cross := (px d1 * py d2 - py d1 * px d2)%F in
  if flt (fabs cross) intersection_eps then (false, r)
  else
    let t1 := ((px x * py d2 - py x * px d2) / cross)%F in
    (true, Point2f_add o1 (Point2f_scale d1 t1)).


Definition Point2f_finite (p : Point2f) : bool :=
  is_finite (px p) && is_finite (py p).



(** An estimator with two stored shapes, an empty one and [sample_face]. *)
Definition two_face_estimator : HeadPoseEstimation :=
  mkEstimator (Fin 500) (Fin 320) (Fin 240) sample_image
              [mkRectangle 0 0 10 10; mkRectangle 0 0 640 480]
              [mkShape (mkRectangle 0 0 10 10) []; sample_face].

(** [sample_face] with landmark 39 moved next to landmark 36: the left eye
    is one pixel wide. *)
Definition narrow_eye_face : full_object_detection :=
  mkShape (mkRectangle 0 0 640 480) (<[39%nat := mkPoint 101 100]> sample_parts).

(** * Properties *)

(** ** Arithmetic of the scalar model *)

Lemma Qtrunc_comp (p q : Q) : (p == q)%Q -> Qtrunc p = Qtrunc q.
Proof.
  destruct p as [pn pd], q as [qn qd]; unfold Qeq, Qtrunc; simpl; intros E.
  rewrite <- (Z.quot_mul_cancel_r pn (Zpos pd) (Zpos qd)) by lia.
  rewrite <- (Z.quot_mul_cancel_r qn (Zpos qd) (Zpos pd)) by lia.
  rewrite E; f_equal; lia.
Qed.

Lemma Qtrunc_frac (n : Z) (d : positive) : Qtrunc (n # d) = Z.quot n (Zpos d).
Proof. reflexivity. Qed.

Lemma Qround_even_Z (z : Z) : Qround_even (inject_Z z) = z.
Proof.
  unfold Qround_even; rewrite Qfloor_Z.
  assert (inject_Z z - inject_Z z == 0)%Q as E0 by ring.
  destruct (Qcompare_spec (inject_Z z - inject_Z z) (1 # 2)) as [E|E|E];
    [exfalso | reflexivity | exfalso]; rewrite E0 in E; discriminate.
Qed.

Lemma cvRound_int (z : Z) : cvRound (int_to_float z) = z.
Proof. apply Qround_even_Z. Qed.

Lemma std_min_int (a b : Z) :
  std_min (int_to_float a) (int_to_float b) = int_to_float (Z.min a b).
Proof.
  unfold std_min, int_to_float, flt, Qlt_bool.
  destruct (Qle_bool (inject_Z a) (inject_Z b)) eqn:E; simpl.
  - apply Qle_bool_iff in E; rewrite <- Zle_Qle in E.
    rewrite Z.min_l by lia; reflexivity.
  - assert (~ a <= b) as Hn
        by (intros Hle; rewrite Zle_Qle in Hle; apply Qle_bool_iff in Hle; congruence).
    rewrite Z.min_r by lia; reflexivity.
Qed.

Lemma std_max_int (a b : Z) :
  std_max (int_to_float a) (int_to_float b) = int_to_float (Z.max a b).
Proof.
  unfold std_max, int_to_float, flt, Qlt_bool.
  destruct (Qle_bool (inject_Z b) (inject_Z a)) eqn:E; simpl.
  - apply Qle_bool_iff in E; rewrite <- Zle_Qle in E.
    rewrite Z.max_l by lia; reflexivity.
  - assert (~ b <= a) as Hn
        by (intros Hle; rewrite Zle_Qle in Hle; apply Qle_bool_iff in Hle; congruence).
    rewrite Z.max_r by lia; reflexivity.
Qed.

Lemma feqb_int (a b : Z) : feqb (int_to_float a) (int_to_float b) = Z.eqb a b.
Proof.
  unfold feqb, int_to_float, Qeq_bool; simpl.
  rewrite !Z.mul_1_r; reflexivity.
Qed.

(** ** Eye regions *)

(** Reading landmark [i] of a face that [eyesROI] or a base rectangle
    accepts: case on the read and drop the out-of-range branch. *)
Ltac read_parts Hyp :=
  repeat match type of Hyp with
         | context [part ?face ?i] =>
             let E := fresh "Hpart" in
             destruct (part face i) eqn:E; cbn [mbind option_bind] in Hyp;
             [| discriminate Hyp]
         end.

Lemma eye_base_roi_int (a b c d e f : dlib_point) :
  eye_base_roi a b c d e f =
  Rect_of_points (mkPoint (px a) (Z.min (py b) (py c)))
                 (mkPoint (px d) (Z.max (py e) (py f))).
Proof.
  unfold eye_base_roi, toCv, Point2f_to_Point; simpl.
  rewrite std_min_int, std_max_int; unfold int_to_float, cvRound.
  rewrite !Qround_even_Z; reflexivity.
Qed.

Lemma eye_base_roi_width (a b c d e f : dlib_point) :
  width (eye_base_roi a b c d e f) = Z.abs (px d - px a).
Proof. rewrite eye_base_roi_int; unfold Rect_of_points; simpl; lia. Qed.

Lemma eye_margin (w : Z) :
  (EYE_ROI_ENLARGE_FACTOR / int_to_float 100 * int_to_float w)%F
  = Fin (25 / 100 * inject_Z w).
Proof. reflexivity. Qed.

Lemma enlarge_finite (roi : Rect) (m : Q) :
  enlarge roi (Fin m) =
  mkRect (Qtrunc (inject_Z (rx roi) - m)) (Qtrunc (inject_Z (ry roi) - m))
         (Qtrunc (inject_Z (width roi) + 2 * m))
         (Qtrunc (inject_Z (height roi) + 2 * m)).
Proof. reflexivity. Qed.

Lemma enlarged_width_quot (w : Z) :
  Qtrunc (inject_Z w + 2 * (25 / 100 * inject_Z w)) = Z.quot (3 * w) 2.
Proof.
  rewrite <- (Qtrunc_frac (3 * w) 2); apply Qtrunc_comp.
  unfold Qeq; simpl; lia.
Qed.

Lemma enlarged_corner_quot (x w : Z) :
  Qtrunc (inject_Z x - 25 / 100 * inject_Z w) = Z.quot (4 * x - w) 4.
Proof.
  rewrite <- (Qtrunc_frac (4 * x - w) 4); apply Qtrunc_comp.
  unfold Qeq; simpl; lia.
Qed.

Lemma eyesROI_is_Some (face : full_object_detection) :
  (48 <= length (parts face))%nat -> is_Some (eyesROI face).
Proof.
  intros Hlen; unfold eyesROI, part.
  repeat match goal with
         | |- context [parts face !! ?i] =>
             let E := fresh "E" in
             destruct (parts face !! i) eqn:E; simpl;
             [| apply lookup_ge_None in E; lia]
         end.
  eexists; reflexivity.
Qed.

(** C4, as the code has it for the left eye: the margin is a quarter of the
    eye's own base width; the corner moves by it and the sides grow by twice
    it, each result cut to an integer toward zero, so the enlarged width is
    [3 * W / 2] cut to an integer, and exactly [1.5 * W] when [W] is even. *)
Theorem eyesROI_left_enlargement (face : full_object_detection)
    (leye reye : list Point) (lroi rroi : Rect) :
  eyesROI face = Some (leye, lroi, reye, rroi) ->
  exists base : Rect,
    left_eye_base face = Some base /\
    let margin := (25 / 100 * inject_Z (width base))%Q in
    rx lroi = Qtrunc (inject_Z (rx base) - margin) /\
    ry lroi = Qtrunc (inject_Z (ry base) - margin) /\
    width lroi = Qtrunc (inject_Z (width base) + 2 * margin) /\
    height lroi = Qtrunc (inject_Z (height base) + 2 * margin) /\
    width lroi = Z.quot (3 * width base) 2 /\
    (Z.even (width base) = true ->
     (inject_Z (width lroi) == 1.5 * inject_Z (width base))%Q).
Proof.
  intros Hroi; unfold eyesROI in Hroi; read_parts Hroi.
  exists (eye_base_roi d d0 d1 d2 d3 d4); split.
  { unfold left_eye_base; rewrite Hpart, Hpart0, Hpart1, Hpart2, Hpart3, Hpart4.
    reflexivity. }
  cbv zeta in Hroi; rewrite !eye_margin, !enlarge_finite in Hroi.
  generalize dependent (eye_base_roi d d0 d1 d2 d3 d4); intros base Hroi.
  injection Hroi as _ <- _ _; cbn [rx ry width height].
  repeat split.
  - apply enlarged_width_quot.
  - intros Hev; rewrite enlarged_width_quot.
    apply Z.even_spec in Hev as [k Hk]; rewrite Hk.
    replace (3 * (2 * k)) with (3 * k * 2) by ring.
    rewrite Z.quot_mul by lia.
    unfold Qeq; simpl; lia.
Qed.

Lemma eyesROI_left_enlargement_witness :
  exists (leye reye : list Point) (lroi rroi : Rect),
    eyesROI sample_face = Some (leye, lroi, reye, rroi) /\
    exists base : Rect,
      left_eye_base sample_face = Some base /\
      let margin := (25 / 100 * inject_Z (width base))%Q in
      rx lroi = Qtrunc (inject_Z (rx base) - margin) /\
      ry lroi = Qtrunc (inject_Z (ry base) - margin) /\
      width lroi = Qtrunc (inject_Z (width base) + 2 * margin) /\
      height lroi = Qtrunc (inject_Z (height base) + 2 * margin) /\
      width lroi = Z.quot (3 * width base) 2 /\
      (Z.even (width base) = true ->
       (inject_Z (width lroi) == 1.5 * inject_Z (width base))%Q).
Proof.
  do 4 eexists; split; [vm_compute; reflexivity |].
  eapply eyesROI_left_enlargement; vm_compute; reflexivity.
Defined.

(** C4 as stated fails on [sample_face].  The left eye has base width 11 and
    enlarged width 16, not 16.5; the right eye has base width 21 and
    enlarged width 29, not 31.5, its margin being a quarter of the enlarged
    left width (16), not of its own base width. *)
Lemma eyesROI_own_margin_counterexample :
  exists (leye reye : list Point) (lroi rroi lbase rbase : Rect),
    eyesROI sample_face = Some (leye, lroi, reye, rroi) /\
    left_eye_base sample_face = Some lbase /\
    right_eye_base sample_face = Some rbase /\
    width lbase = 11 /\ width lroi = 16 /\
    width rbase = 21 /\ width rroi = 29 /\
    ~ (inject_Z (width lroi) == 1.5 * inject_Z (width lbase))%Q /\
    ~ (inject_Z (width rroi) == 1.5 * inject_Z (width rbase))%Q.
Proof.
  exists [mkPoint 3 6; mkPoint 6 4; mkPoint 10 3; mkPoint 14 6; mkPoint 10 8;
          mkPoint 6 9],
         [mkPoint 4 7; mkPoint 9 5; mkPoint 16 4; mkPoint 25 7; mkPoint 16 10;
          mkPoint 9 9],
         (mkRect 97 94 16 11), (mkRect 136 93 29 14),
         (mkRect 100 97 11 6), (mkRect 140 97 21 6).
  repeat split; try (vm_compute; reflexivity); vm_compute; discriminate.
Qed.

(** The right eye takes its margin from the left region as already
    enlarged: line 104 reads [leye_roi.width]. *)
Lemma eyesROI_right_margin (face : full_object_detection)
    (leye reye : list Point) (lroi rroi : Rect) :
  eyesROI face = Some (leye, lroi, reye, rroi) ->
  exists base : Rect,
    right_eye_base face = Some base /\
    rroi = enlarge base (Fin (25 / 100 * inject_Z (width lroi))).
Proof.
  intros Hroi; unfold eyesROI in Hroi; read_parts Hroi.
  exists (eye_base_roi d5 d6 d7 d8 d9 d10); split.
  { unfold right_eye_base; rewrite Hpart5, Hpart6, Hpart7, Hpart8, Hpart9, Hpart10.
    reflexivity. }
  cbv zeta in Hroi; rewrite !eye_margin in Hroi.
  injection Hroi as _ <- _ <-; reflexivity.
Qed.

(** ** Pupil normalisation *)

(** Where the width is even, the middle of the right edge does go to 1. *)
Lemma pupil_relative_right_edge_even (x y k h : Z) (py0 : float) :
  0 < k ->
  feqb (px (pupil_relative (mkPoint (int_to_float (2 * k)) py0)
                           (mkRect x y (2 * k) h)))
       (Fin 1) = true.
Proof.
  intros Hk; unfold pupil_relative; cbn [width height px py].
  replace (Z.quot (2 * k) 2) with k
    by (replace (2 * k) with (k * 2) by ring; rewrite Z.quot_mul; lia).
  unfold br, tl, Point_sub, Point_to_Point2f, Point2f_sub, Point2f_scale;
    cbn [rx ry width height px py].
  unfold int_to_float, fsub, fopp, fmul, fadd, fdiv.
  destruct (Qeq_bool (inject_Z k) 0) eqn:E.
  { apply Qeq_bool_eq in E; unfold Qeq in E; simpl in E; lia. }
  unfold feqb; apply Qeq_bool_iff.
  assert (~ inject_Z k == 0)%Q
    by (unfold Qeq; simpl; lia).
  replace (x + 2 * k - x) with (2 * k) by ring.
  rewrite !inject_Z_mult; field; assumption.
Qed.

(** Where it is odd, the divisor [width / 2] is an integer quotient and the
    middle of the right edge goes to [width / (width - 1)]. *)
Lemma pupil_relative_right_edge_odd (x y k h : Z) (py0 : float) :
  0 < k ->
  feqb (px (pupil_relative (mkPoint (int_to_float (2 * k + 1)) py0)
                           (mkRect x y (2 * k + 1) h)))
       (Fin ((2 * k + 1) # Z.to_pos (2 * k))) = true.
Proof.
  intros Hk; unfold pupil_relative; cbn [width height px py].
  replace (Z.quot (2 * k + 1) 2) with k
    by (apply Z.quot_unique with 1; lia).
  unfold br, tl, Point_sub, Point_to_Point2f, Point2f_sub, Point2f_scale;
    cbn [rx ry width height px py].
  unfold int_to_float, fsub, fopp, fmul, fadd, fdiv.
  destruct (Qeq_bool (inject_Z k) 0) eqn:E.
  { apply Qeq_bool_eq in E; unfold Qeq in E; simpl in E; lia. }
  unfold feqb; apply Qeq_bool_iff.
  assert (~ inject_Z k == 0)%Q
    by (unfold Qeq; simpl; lia).
  replace (x + (2 * k + 1) - x) with (2 * k + 1) by ring.
  rewrite (Qmake_Qdiv (2 * k + 1)), Z2Pos.id by lia.
  rewrite !inject_Z_plus, !inject_Z_mult; field; assumption.
Qed.

(** C5 at a failing input: on [sample_face] the right eye region is 29 wide
    and 14 high, the locator reports the middle of its right edge, (29, 7),
    and the normalised pupil is (29/28, 0), not (1, 0): the code divides by
    [29 / 2 = 14], an integer quotient, where half the width is 14.5. *)
Theorem pupilsRelativePose_right_edge_odd_width :
  exists (leye reye : list Point) (lroi rroi : Rect) (lrel rrel : Point2f),
    eyesROI sample_face = Some (leye, lroi, reye, rroi) /\
    rroi = mkRect 136 93 29 14 /\
    @findEyeCenter sample_collaborators sample_image rroi
      (@eye_mask sample_collaborators rroi reye) = mkPoint (Fin 29) (Fin (14 / 2)) /\
    @pupilsRelativePose sample_collaborators sample_image sample_face
      = Some (lrel, rrel) /\
    feqb (px rrel) (Fin (29 # 28)) = true /\
    feqb (py rrel) (Fin 0) = true /\
    feqb (px rrel) (Fin 1) = false.
Proof.
  do 6 eexists; repeat split; vm_compute; reflexivity.
Qed.

(** A pupil at the centre of a region at least two pixels wide and high
    goes to (0, 0). *)
Lemma pupil_relative_center (x y w h : Z) :
  2 <= w -> 2 <= h ->
  let rel := pupil_relative
               (mkPoint (int_to_float w / int_to_float 2)%F
                        (int_to_float h / int_to_float 2)%F)
               (mkRect x y w h) in
  feqb (px rel) (Fin 0) = true /\ feqb (py rel) (Fin 0) = true.
Proof.
  intros Hw Hh; unfold pupil_relative; cbn [width height px py].
  assert (forall n, 2 <= n -> Qeq_bool (inject_Z (Z.quot n 2)) 0 = false) as Hq.
  { intros n Hn; destruct (Qeq_bool (inject_Z (Z.quot n 2)) 0) eqn:E; [| reflexivity].
    apply Qeq_bool_eq in E; unfold Qeq in E; simpl in E.
    assert (1 <= Z.quot n 2) by (apply Z.quot_le_lower_bound; lia); lia. }
  unfold br, tl, Point_sub, Point_to_Point2f, Point2f_sub, Point2f_scale;
    cbn [rx ry width height px py].
  unfold int_to_float, fsub, fopp, fmul, fadd, fdiv.
  change (Qeq_bool (inject_Z 2) 0) with false; cbv iota.
  rewrite (Hq w Hw), (Hq h Hh).
  assert (~ inject_Z (Z.quot w 2) == 0)%Q as Hw0
    by (intros E; apply Qeq_bool_iff in E; rewrite (Hq w Hw) in E; discriminate).
  assert (~ inject_Z (Z.quot h 2) == 0)%Q as Hh0
    by (intros E; apply Qeq_bool_iff in E; rewrite (Hq h Hh) in E; discriminate).
  replace (x + w - x) with w by ring; replace (y + h - y) with h by ring.
  split; unfold feqb; apply Qeq_bool_iff; field; assumption.
Qed.

(** ** The pose solve *)

Section PoseProperties.
Context `{H : Header} `{C : Collaborators}.

(** C7: the camera matrix of the pose solve has the focal length at (0,0)
    and (1,1), the optical centre at (0,2) and (1,2), 1 at (2,2) and 0 at
    the four other entries; it is the matrix handed to the solver. *)
Theorem projection_entries (s : HeadPoseEstimation) (face_idx : nat) :
  let P := projection s in
  length P = 9%nat /\
  mat_at 3 P 0 0 = focalLength s /\
  mat_at 3 P 1 1 = focalLength s /\
  mat_at 3 P 0 2 = opticalCenterX s /\
  mat_at 3 P 1 2 = opticalCenterY s /\
  mat_at 3 P 2 2 = Fin 1 /\
  mat_at 3 P 0 1 = Fin 0 /\
  mat_at 3 P 1 0 = Fin 0 /\
  mat_at 3 P 2 0 = Fin 0 /\
  mat_at 3 P 2 1 = Fin 0 /\
  match pose_solver_args s face_idx with
  | Some args => cameraMatrix args = P
  | None => True
  end.
Proof.
  repeat split.
  unfold pose_solver_args.
  repeat match goal with
         | |- context [coordsOf s face_idx ?f] =>
             destruct (coordsOf s face_idx f); cbn [mbind option_bind]; [| exact I]
         end.
  reflexivity.
Qed.

Lemma coordsOf_Some (s : HeadPoseEstimation) (face_idx : nat)
    (shape : full_object_detection) (f : FACIAL_FEATURE) (p : dlib_point) :
  shapes s !! face_idx = Some shape ->
  part shape (feature_index f) = Some p ->
  coordsOf s face_idx f = Some (toCv p).
Proof. intros Hs Hp; unfold coordsOf; rewrite Hs; simpl; rewrite Hp; reflexivity. Qed.

(** C1: for a face index with a 68-point landmark set, [pose] calls the
    solver once, on the eight anthropometric points, the seven landmarks
    sellion, right eye, left eye, right side, left side, menton, nose and the
    midpoint of the two mouth-centre landmarks, no distortion coefficients,
    the guess rvec = (1.2, 1.2, -1.2), tvec = (0, 0, 1000) with the
    extrinsic-guess flag set, and builds its result from the two vectors as
    the call leaves them. *)
Theorem pose_solver_call (s : HeadPoseEstimation) (face_idx : nat)
    (shape : full_object_detection) :
  shapes s !! face_idx = Some shape ->
  length (parts shape) = 68%nat ->
  (forall f, (feature_index f < 68)%nat) ->
  exists (lm : FACIAL_FEATURE -> dlib_point) (sx sy : Q),
    (forall f, part shape (feature_index f) = Some (lm f)) /\
    (sx == (inject_Z (px (lm MOUTH_CENTER_TOP))
            + inject_Z (px (lm MOUTH_CENTER_BOTTOM))) / 2)%Q /\
    (sy == (inject_Z (py (lm MOUTH_CENTER_TOP))
            + inject_Z (py (lm MOUTH_CENTER_BOTTOM))) / 2)%Q /\
    let args :=
      mkSolvePnP
        [P3D_SELLION; P3D_RIGHT_EYE; P3D_LEFT_EYE; P3D_RIGHT_EAR;
         P3D_LEFT_EAR; P3D_MENTON; P3D_NOSE; P3D_STOMMION]
        [toCv (lm SELLION); toCv (lm RIGHT_EYE); toCv (lm LEFT_EYE);
         toCv (lm RIGHT_SIDE); toCv (lm LEFT_SIDE); toCv (lm MENTON);
         toCv (lm NOSE); mkPoint (Fin sx) (Fin sy)]
        (projection s) None
        (mkVec3 (Fin 1.2) (Fin 1.2) (Fin (-1.2)))
        (mkVec3 (Fin 0) (Fin 0) (Fin 1000))
        true ITERATIVE in
    pose_solver_args s face_idx = Some args /\
    pose s face_idx
    = Some (assemble_pose (solvePnP args).1.2 (solvePnP args).2).
Proof.
  intros Hshape Hlen Hidx.
  assert (forall f, is_Some (part shape (feature_index f))) as Hsome.
  { intros f; apply lookup_lt_is_Some; rewrite Hlen; apply Hidx. }
  exists (fun f => default (mkPoint 0 0) (part shape (feature_index f))).
  assert (forall f, part shape (feature_index f)
                    = Some (default (mkPoint 0 0) (part shape (feature_index f))))
    as Hlm by (intros f; destruct (Hsome f) as [p ->]; reflexivity).
  set (lm := fun f => default (mkPoint 0 0) (part shape (feature_index f))) in *.
  eexists _, _; split; [exact Hlm |].
  assert (forall f, coordsOf s face_idx f = Some (toCv (lm f))) as Hc
    by (intros f; apply (coordsOf_Some _ _ shape); [assumption | apply Hlm]).
  unfold pose, pose_solver_args; rewrite !Hc; cbn [mbind option_bind].
  split; [| split; [| split]].
  3: { unfold Point2f_scale, Point2f_add, toCv, int_to_float;
       cbn [px py fadd fmul]; reflexivity. }
  - unfold lm; field.
  - unfold lm; field.
  - destruct (solvePnP _) as [[ok rvec] tvec]; reflexivity.
Qed.

(** C2: whatever vectors the solver leaves, the returned 4x4 matrix has the
    Rodrigues matrix of [rvec] as its rotation block, [tvec / 1000] as its
    translation column and (0, 0, 0, 1) as its bottom row. *)
Theorem pose_matrix_of_solver_output (s : HeadPoseEstimation) (face_idx : nat)
    (args : solvePnP_args) (ok : bool) (rvec tvec : Vec3d) :
  pose_solver_args s face_idx = Some args ->
  solvePnP args = (ok, rvec, tvec) ->
  exists P : head_pose,
    pose s face_idx = Some P /\
    length P = 16%nat /\
    (forall i j, (i < 3)%nat -> (j < 3)%nat ->
                 mat_at 4 P i j = mat_at 3 (Rodrigues rvec) i j) /\
    mat_at 4 P 0 3 = (v0 tvec / Fin 1000)%F /\
    mat_at 4 P 1 3 = (v1 tvec / Fin 1000)%F /\
    mat_at 4 P 2 3 = (v2 tvec / Fin 1000)%F /\
    mat_at 4 P 3 0 = Fin 0 /\ mat_at 4 P 3 1 = Fin 0 /\
    mat_at 4 P 3 2 = Fin 0 /\ mat_at 4 P 3 3 = Fin 1.
Proof.
  intros Hargs Hsolve.
  exists (assemble_pose rvec tvec); split.
  { unfold pose; rewrite Hargs; cbn [mbind option_bind]; rewrite Hsolve; reflexivity. }
  split; [reflexivity |]; split; [| repeat split].
  intros i j Hi Hj.
  destruct i as [| [| [| i]]]; [| | | lia];
    (destruct j as [| [| [| j]]]; [| | | lia]); reflexivity.
Qed.

Lemma fdiv_1000_finite (a : float) :
  is_finite (a / Fin 1000)%F = is_finite a.
Proof. destruct a; reflexivity. Qed.

(** C3, as the code has it: [pose] drops the value of [solvePnP] and tests
    nothing: with readable landmarks it returns the matrix built from
    [rvec] and [tvec] as the call leaves them, whether the solver reports
    success or not, and a non-finite [tvec] entry stays non-finite in the
    returned matrix. *)
Theorem pose_ignores_solver_status (s : HeadPoseEstimation) (face_idx : nat)
    (args : solvePnP_args) (ok : bool) (rvec tvec : Vec3d) :
  pose_solver_args s face_idx = Some args ->
  solvePnP args = (ok, rvec, tvec) ->
  pose s face_idx = Some (assemble_pose rvec tvec) /\
  is_finite (mat_at 4 (assemble_pose rvec tvec) 0 3) = is_finite (v0 tvec) /\
  is_finite (mat_at 4 (assemble_pose rvec tvec) 1 3) = is_finite (v1 tvec) /\
  is_finite (mat_at 4 (assemble_pose rvec tvec) 2 3) = is_finite (v2 tvec).
Proof.
  intros Hargs Hsolve; split.
  { unfold pose; rewrite Hargs; cbn [mbind option_bind]; rewrite Hsolve; reflexivity. }
  repeat split; apply fdiv_1000_finite.
Qed.

End PoseProperties.

Lemma sample_feature_index_lt (f : FACIAL_FEATURE) :
  (sample_feature_index f < 68)%nat.
Proof. destruct f; vm_compute; repeat constructor. Qed.

Lemma pose_solver_call_witness :
  shapes sample_estimator !! 0%nat = Some sample_face /\
  length (parts sample_face) = 68%nat /\
  exists args : solvePnP_args,
    @pose_solver_args sample_header sample_estimator 0 = Some args /\
    useExtrinsicGuess args = true /\ distCoeffs args = None.
Proof.
  split; [reflexivity |]; split; [reflexivity |].
  destruct (@pose_solver_call sample_header sample_collaborators
              sample_estimator 0%nat sample_face eq_refl eq_refl
              sample_feature_index_lt)
    as (lm & sx & sy & _ & _ & _ & Hargs & _).
  eexists; split; [exact Hargs |]; split; reflexivity.
Defined.

Lemma pose_matrix_of_solver_output_witness :
  exists (args : solvePnP_args) (P : head_pose),
    @pose_solver_args sample_header sample_estimator 0 = Some args /\
    sample_solver args
    = (true, mkVec3 (Fin 0) (Fin 0) (Fin 0), mkVec3 (Fin 0) (Fin 0) (Fin 1000)) /\
    @pose sample_header sample_collaborators sample_estimator 0 = Some P /\
    mat_at 4 P 2 3 = (Fin 1000 / Fin 1000)%F.
Proof.
  eexists.
  edestruct (@pose_matrix_of_solver_output sample_header sample_collaborators
              sample_estimator 0%nat _ true
              (mkVec3 (Fin 0) (Fin 0) (Fin 0))
              (mkVec3 (Fin 0) (Fin 0) (Fin 1000)) eq_refl eq_refl)
    as (P & HP & _ & _ & _ & _ & Ht & _).
  exists P; split; [reflexivity |]; split; [reflexivity |]; split; assumption.
Defined.

Lemma pose_ignores_solver_status_witness :
  exists args : solvePnP_args,
    @pose_solver_args sample_header sample_estimator 0 = Some args /\
    failing_solver args = (false, rvec_guess args, mkVec3 NaN NaN NaN) /\
    @pose sample_header failing_collaborators sample_estimator 0
    = Some (@assemble_pose failing_collaborators (rvec_guess args)
              (mkVec3 NaN NaN NaN)).
Proof.
  eexists; split; [reflexivity |]; split; [reflexivity |].
  eapply (@pose_ignores_solver_status sample_header failing_collaborators
            sample_estimator 0%nat _ false); reflexivity.
Defined.

(** C3 as stated fails: with a solver that reports failure and leaves NaN
    in [tvec], [pose] on [sample_estimator] still returns a matrix, whose
    translation column is NaN. *)
Lemma pose_failed_solve_counterexample :
  exists (args : solvePnP_args) (rvec tvec : Vec3d) (P : head_pose),
    @pose_solver_args sample_header sample_estimator 0 = Some args /\
    @solvePnP failing_collaborators args = (false, rvec, tvec) /\
    Vec3d_finite tvec = false /\
    @pose sample_header failing_collaborators sample_estimator 0 = Some P /\
    is_nan (mat_at 4 P 0 3) = true /\
    is_nan (mat_at 4 P 1 3) = true /\
    is_nan (mat_at 4 P 2 3) = true.
Proof.
  do 4 eexists; repeat split; vm_compute; reflexivity.
Qed.

(** ** Frames: the optical centre and the stored landmark sets *)

Section FrameProperties.
Context `{H : Header} `{C : Collaborators}.

Lemma pupilsRelativePose_is_Some (image : Mat) (face : full_object_detection) :
  (48 <= length (parts face))%nat -> is_Some (pupilsRelativePose image face).
Proof.
  intros Hlen; destruct (eyesROI_is_Some face Hlen) as [[[[le lr] re] rr] E].
  unfold pupilsRelativePose; rewrite E; eexists; reflexivity.
Qed.

(** Under the regressor's contract [update] has a result: the focal length
    is kept, faces and landmark sets are those of the new image, and the
    optical centre is assigned only where the test finds the sentinel. *)
Lemma update_defined (image : Mat) (s : HeadPoseEstimation) :
  regressor_contract ->
  exists s' : HeadPoseEstimation,
    update image s = Some s' /\
    focalLength s' = focalLength s /\
    faces s' = detector image /\
    shapes s' = pose_model image <$> detector image /\
    opticalCenter s' =
      if center_unset s
      then (int_to_float (Z.quot (cols image) 2),
            int_to_float (Z.quot (rows image) 2))
      else opticalCenter s.
Proof.
  intros Hreg; unfold update, center_unset.
  assert (is_Some (mapM (pupilsRelativePose image)
                        (pose_model image <$> detector image))) as [l Hl].
  { apply mapM_is_Some, Forall_fmap, Forall_forall; intros r _; simpl.
    apply pupilsRelativePose_is_Some; rewrite Hreg; lia. }
  destruct (feqb (opticalCenterX s) (int_to_float (-1)));
    cbv zeta; rewrite Hl; eexists; repeat split.
Qed.

Lemma center_set_by_image (image : Mat) (s' : HeadPoseEstimation) :
  0 <= cols image ->
  opticalCenter s' = (int_to_float (Z.quot (cols image) 2),
                      int_to_float (Z.quot (rows image) 2)) ->
  center_unset s' = false.
Proof.
  intros Hc Hs'; unfold center_unset.
  injection Hs' as -> _; rewrite feqb_int.
  apply Z.eqb_neq; pose proof (Z.quot_pos (cols image) 2); lia.
Qed.

Lemma updates_keep_center (images : list Mat) (s : HeadPoseEstimation) :
  regressor_contract ->
  center_unset s = false ->
  exists s' : HeadPoseEstimation,
    updates images s = Some s' /\ opticalCenter s' = opticalCenter s.
Proof.
  intros Hreg; revert s; induction images as [| image rest IH]; intros s Hset.
  - exists s; split; reflexivity.
  - destruct (update_defined image s Hreg) as (s1 & Hup & _ & _ & _ & Hc).
    rewrite Hset in Hc.
    destruct (IH s1) as (s2 & Hrest & Hc2).
    { unfold center_unset, opticalCenter in *; injection Hc as -> _; exact Hset. }
    exists s2; split; [simpl; rewrite Hup; exact Hrest | congruence].
Qed.

(** C6: the first [update] of a new estimator sets the optical centre to
    (cols / 2, rows / 2) of its image, and no later [update], whatever the
    size of its image, changes it. *)
Theorem optical_center_set_once (focal : float) (image : Mat) (rest : list Mat) :
  regressor_contract ->
  0 <= cols image ->
  exists s1 : HeadPoseEstimation,
    update image (HeadPoseEstimation_new focal) = Some s1 /\
    opticalCenter s1 = (int_to_float (Z.quot (cols image) 2),
                        int_to_float (Z.quot (rows image) 2)) /\
    exists s2 : HeadPoseEstimation,
      updates rest s1 = Some s2 /\ opticalCenter s2 = opticalCenter s1.
Proof.
  intros Hreg Hcols.
  destruct (update_defined image (HeadPoseEstimation_new focal) Hreg)
    as (s1 & Hup & _ & _ & _ & Hc).
  change (center_unset (HeadPoseEstimation_new focal)) with true in Hc.
  exists s1; split; [exact Hup |]; split; [exact Hc |].
  apply updates_keep_center; [exact Hreg |].
  apply (center_set_by_image image s1 Hcols Hc).
Qed.

(** C9, as the code has it: on a new estimator [pose] makes no test of the
    optical centre; the camera matrix holds the sentinel -1 at (0,2) and
    (1,2), and since no landmark set is stored every landmark read is out
    of range, for every face index. *)
Theorem pose_before_first_frame (focal : float) (face_idx : nat) :
  let s0 := HeadPoseEstimation_new focal in
  mat_at 3 (projection s0) 0 2 = Fin (-1) /\
  mat_at 3 (projection s0) 1 2 = Fin (-1) /\
  (forall f, coordsOf s0 face_idx f = None) /\
  pose_solver_args s0 face_idx = None /\
  pose s0 face_idx = None.
Proof.
  repeat split.
Qed.

Lemma updates_aligned (images : list Mat) (s s' : HeadPoseEstimation) :
  regressor_contract ->
  aligned s -> updates images s = Some s' -> aligned s'.
Proof.
  intros Hreg; revert s; induction images as [| image rest IH];
    intros s Hal Hrun; simpl in Hrun.
  - injection Hrun as <-; exact Hal.
  - destruct (update_defined image s Hreg) as (s1 & Hup & _ & Hf & Hs & _).
    rewrite Hup in Hrun; simpl in Hrun.
    apply (IH s1); [| exact Hrun].
    split; [rewrite Hs, Hf; apply length_fmap |].
    rewrite Hs; apply Forall_fmap, Forall_forall; intros r _; apply Hreg.
Qed.

Lemma coordsOf_in_range (s : HeadPoseEstimation) (face_idx : nat)
    (f : FACIAL_FEATURE) :
  aligned s -> (feature_index f < 68)%nat ->
  is_Some (coordsOf s face_idx f) <-> (face_idx < length (faces s))%nat.
Proof.
  intros [Hlen Hparts] Hf; unfold coordsOf; split.
  - intros [p Hp]; rewrite <- Hlen; apply lookup_lt_is_Some.
    destruct (shapes s !! face_idx); [eauto | discriminate].
  - intros Hidx; rewrite <- Hlen in Hidx.
    apply lookup_lt_is_Some in Hidx as [shape Hshape]; rewrite Hshape; simpl.
    assert (length (parts shape) = 68%nat) as Hn
      by (rewrite Forall_lookup in Hparts; exact (Hparts _ _ Hshape)).
    assert (is_Some (part shape (feature_index f))) as [p Hp]
      by (apply lookup_lt_is_Some; lia).
    rewrite Hp; eexists; reflexivity.
Qed.

Lemma pose_in_range (s : HeadPoseEstimation) (face_idx : nat) :
  aligned s -> (forall f, (feature_index f < 68)%nat) ->
  is_Some (pose s face_idx) <-> (face_idx < length (faces s))%nat.
Proof.
  intros Hal Hf; split.
  - intros [P HP]; apply (coordsOf_in_range s face_idx SELLION Hal (Hf _)).
    unfold pose, pose_solver_args in HP.
    destruct (coordsOf s face_idx SELLION); [eauto | discriminate].
  - intros Hidx; unfold pose, pose_solver_args.
    repeat match goal with
           | |- context [coordsOf s face_idx ?f] =>
               let p := fresh "p" in
               let E := fresh "E" in
               destruct (proj2 (coordsOf_in_range s face_idx f Hal (Hf f)) Hidx)
                 as [p E];
               rewrite E; cbn [mbind option_bind]
           end.
    destruct (solvePnP _) as [[ok rvec] tvec]; eexists; reflexivity.
Qed.

(** C10: [coordsOf] and [pose] read [shapes[face_idx]] unchecked.  After
    any run of [update] calls on a new estimator, with a regressor that
    yields 68 points and features indexed below 68, the read has a value
    exactly when [face_idx] is below the number of faces of the last
    [update]; at any larger index it is out of range. *)
Theorem coordsOf_defined_iff_in_range (focal : float) (images : list Mat)
    (s : HeadPoseEstimation) (face_idx : nat) :
  regressor_contract ->
  (forall f, (feature_index f < 68)%nat) ->
  updates images (HeadPoseEstimation_new focal) = Some s ->
  (forall f, is_Some (coordsOf s face_idx f)
             <-> (face_idx < length (faces s))%nat) /\
  (is_Some (pose s face_idx) <-> (face_idx < length (faces s))%nat) /\
  ((length (faces s) <= face_idx)%nat ->
   (forall f, coordsOf s face_idx f = None) /\ pose s face_idx = None).
Proof.
  intros Hreg Hf Hrun.
  assert (aligned s) as Hal.
  { apply (updates_aligned images (HeadPoseEstimation_new focal) s Hreg);
      [split; [reflexivity | constructor] | exact Hrun]. }
  split; [intros f; apply coordsOf_in_range; auto |].
  split; [apply pose_in_range; auto |].
  intros Hge; split; [intros f |]; apply eq_None_not_Some; intros Hsome.
  - apply (coordsOf_in_range s face_idx f Hal (Hf f)) in Hsome; lia.
  - apply (pose_in_range s face_idx Hal Hf) in Hsome; lia.
Qed.

(** [poses] stays in range: it returns one pose per face. *)
Lemma poses_defined (s : HeadPoseEstimation) :
  aligned s -> (forall f, (feature_index f < 68)%nat) ->
  exists l : list head_pose,
    poses s = Some l /\ length l = length (faces s).
Proof.
  intros Hal Hf; unfold poses.
  assert (is_Some (mapM (pose s) (seq 0 (length (faces s))))) as [l Hl].
  { apply mapM_is_Some, Forall_forall; intros i Hi; simpl.
    apply pose_in_range; [assumption | assumption |].
    apply elem_of_seq in Hi; lia. }
  exists l; split; [exact Hl |].
  apply mapM_Some in Hl; apply Forall2_length in Hl.
  rewrite length_seq in Hl; congruence.
Qed.

End FrameProperties.

Lemma sample_regressor_contract : @regressor_contract sample_collaborators.
Proof. intros image r; reflexivity. Qed.

(** The scenario of a 640x480 first frame with focal length 500: the
    estimator after it is [sample_estimator], optical centre (320, 240). *)
Example first_frame_640_480 :
  @update sample_collaborators sample_image (HeadPoseEstimation_new (Fin 500))
  = Some sample_estimator.
Proof. vm_compute; reflexivity. Qed.

Lemma optical_center_set_once_witness :
  0 <= cols sample_image /\
  exists s1 s2 : HeadPoseEstimation,
    @update sample_collaborators sample_image (HeadPoseEstimation_new (Fin 500))
    = Some s1 /\
    opticalCenter s1 = (Fin 320, Fin 240) /\
    @updates sample_collaborators [mkMat 100 200 []; mkMat 7 3 []] s1 = Some s2 /\
    opticalCenter s2 = (Fin 320, Fin 240).
Proof.
  split; [discriminate |].
  destruct (@optical_center_set_once sample_collaborators (Fin 500) sample_image
              [mkMat 100 200 []; mkMat 7 3 []] sample_regressor_contract)
    as (s1 & Hup & Hc & s2 & Hrun & Hc2); [discriminate |].
  exists s1, s2; split; [exact Hup |]; split; [exact Hc |].
  split; [exact Hrun |]; rewrite Hc2; exact Hc.
Defined.

(** C9 as stated fails: on a new estimator [pose] builds the camera matrix
    from the sentinel and ends in the out-of-range landmark read, the very
    outcome an out-of-range index has on [sample_estimator], whose optical
    centre is set; nothing tells the two apart. *)
Lemma pose_before_first_frame_counterexample :
  let s0 := HeadPoseEstimation_new (Fin 500) in
  center_unset s0 = true /\
  center_unset sample_estimator = false /\
  mat_at 3 (projection s0) 0 2 = Fin (-1) /\
  @pose sample_header sample_collaborators s0 0 = None /\
  @pose sample_header sample_collaborators s0 1 = None /\
  @pose sample_header sample_collaborators sample_estimator 1 = None.
Proof. repeat split. Qed.

Lemma coordsOf_defined_iff_in_range_witness :
  @updates sample_collaborators [sample_image] (HeadPoseEstimation_new (Fin 500))
  = Some sample_estimator /\
  length (faces sample_estimator) = 1%nat /\
  (is_Some (@pose sample_header sample_collaborators sample_estimator 0)
   <-> (0 < 1)%nat) /\
  ((1 <= 1)%nat ->
   (forall f, @coordsOf sample_header sample_estimator 1 f = None) /\
   @pose sample_header sample_collaborators sample_estimator 1 = None).
Proof.
  split; [vm_compute; reflexivity |]; split; [reflexivity |].
  split.
  - apply (@coordsOf_defined_iff_in_range sample_header sample_collaborators
             (Fin 500) [sample_image] sample_estimator 0%nat
             sample_regressor_contract sample_feature_index_lt).
    vm_compute; reflexivity.
  - apply (@coordsOf_defined_iff_in_range sample_header sample_collaborators
             (Fin 500) [sample_image] sample_estimator 1%nat
             sample_regressor_contract sample_feature_index_lt).
    vm_compute; reflexivity.
Defined.

(** ** The gaze point *)

Lemma fdiv_by_zero (a : float) (q : Q) :
  Qeq_bool q 0 = true -> is_finite (a / Fin q)%F = false.
Proof.
  intros Hq; destruct a as [p | | |]; simpl; rewrite ?Hq;
    try reflexivity.
  - destruct (Qeq_bool p 0); [reflexivity |].
    destruct (Qle_bool 0 p); reflexivity.
  - destruct (Qle_bool 0 q); reflexivity.
  - destruct (Qle_bool 0 q); reflexivity.
Qed.

Lemma fmul_zero_by_non_finite (z : Q) (t : float) :
  Qeq_bool z 0 = true -> is_finite t = false -> (Fin z * t)%F = NaN.
Proof.
  intros Hz Ht; destruct t; try discriminate; simpl; rewrite ?Hz; reflexivity.
Qed.

Lemma fadd_NaN (a : float) : (a + NaN)%F = NaN.
Proof. destruct a; reflexivity. Qed.

(** Where the dot product with the normal (0, 0, 1) is zero, the third
    coordinate of the vector is a finite zero. *)
Lemma dot_normal_zero (V : Vec3d) :
  feqb (Vec3d_dot V plane_normal) (Fin 0) = true ->
  exists z : Q, v2 V = Fin z /\ Qeq_bool z 0 = true /\
                exists q : Q, Vec3d_dot V plane_normal = Fin q /\
                              Qeq_bool q 0 = true.
Proof.
  destruct V as [a b c]; unfold Vec3d_dot, plane_normal; cbn [v0 v1 v2].
  destruct a as [a | | |], b as [b | | |], c as [c | | |];
    try (simpl; discriminate); intros Hz.
  exists c; split; [reflexivity |]; split.
  - simpl in Hz; apply Qeq_bool_iff; apply Qeq_bool_iff in Hz.
    rewrite <- Hz; ring.
  - eexists; split; [reflexivity | exact Hz].
Qed.

Section GazeProperties.
Context `{C : Collaborators}.

(** C8, as the code has it: the debug build makes no test before dividing
    by direction . normal.  Where that product is zero, the quotient [t] is
    not finite and the third coordinate of the point it prints is NaN. *)
Theorem gaze_parallel_not_finite (pose : head_pose) :
  feqb (Vec3d_dot (gaze_direction pose) plane_normal) (Fin 0) = true ->
  is_finite (- Vec3d_dot (gaze_origin pose) plane_normal
             / Vec3d_dot (gaze_direction pose) plane_normal)%F = false /\
  v2 (gaze_on_screen pose) = NaN /\
  Vec3d_finite (gaze_on_screen pose) = false.
Proof.
  intros Hpar.
  destruct (dot_normal_zero _ Hpar) as (z & Hz & Hz0 & q & Hq & Hq0).
  assert (is_finite (- Vec3d_dot (gaze_origin pose) plane_normal
                     / Vec3d_dot (gaze_direction pose) plane_normal)%F = false)
    as Ht by (rewrite Hq; apply fdiv_by_zero; exact Hq0).
  assert (v2 (gaze_on_screen pose) = NaN) as Hnan.
  { unfold gaze_on_screen, Vec3d_add, Vec3d_scale; cbn [v2].
    rewrite Hz at 1.
    rewrite (fmul_zero_by_non_finite z _ Hz0 Ht); apply fadd_NaN. }
  split; [exact Ht |]; split; [exact Hnan |].
  unfold Vec3d_finite; rewrite Hnan; simpl; apply andb_false_r.
Qed.

End GazeProperties.

Lemma gaze_parallel_not_finite_witness :
  feqb (Vec3d_dot (@gaze_direction sample_collaborators sideways_pose)
                  plane_normal) (Fin 0) = true /\
  v2 (@gaze_on_screen sample_collaborators sideways_pose) = NaN.
Proof.
  split; [vm_compute; reflexivity |].
  apply (@gaze_parallel_not_finite sample_collaborators sideways_pose).
  vm_compute; reflexivity.
Defined.

(** C8 as stated fails: for [sideways_pose] the gaze direction is (1, 0, 0),
    parallel to the plane; the division is carried out and the point
    computed is (-inf, NaN, NaN). *)
Lemma gaze_parallel_counterexample :
  feqb (v0 (@gaze_direction sample_collaborators sideways_pose)) (Fin 1) = true /\
  feqb (v1 (@gaze_direction sample_collaborators sideways_pose)) (Fin 0) = true /\
  feqb (v2 (@gaze_direction sample_collaborators sideways_pose)) (Fin 0) = true /\
  feqb (Vec3d_dot (@gaze_direction sample_collaborators sideways_pose)
                  plane_normal) (Fin 0) = true /\
  @gaze_on_screen sample_collaborators sideways_pose = mkVec3 NInf NaN NaN /\
  Vec3d_finite (@gaze_on_screen sample_collaborators sideways_pose) = false.
Proof. repeat split; vm_compute; reflexivity. Qed.

(** * Further properties of the code *)

Ltac Zify.zify_post_hook ::= Z.to_euclidean_division_equations.

(** ** Eye regions: bounds, sizes, contours *)

Lemma Qtrunc_quarter (x w : Z) :
  Qtrunc (inject_Z x - 25 / 100 * inject_Z w) = Z.quot (4 * x - w) 4.
Proof.
  rewrite <- (Qtrunc_frac (4 * x - w) 4); apply Qtrunc_comp.
  unfold Qeq; simpl; lia.
Qed.

Lemma Qtrunc_half (h w : Z) :
  Qtrunc (inject_Z h + 2 * (25 / 100 * inject_Z w)) = Z.quot (2 * h + w) 2.
Proof.
  rewrite <- (Qtrunc_frac (2 * h + w) 2); apply Qtrunc_comp.
  unfold Qeq; simpl; lia.
Qed.

(** The enlargement by a quarter of [w], in integers. *)
Lemma enlarge_quarter (roi : Rect) (w : Z) :
  enlarge roi (Fin (25 / 100 * inject_Z w)) =
  mkRect (Z.quot (4 * rx roi - w) 4) (Z.quot (4 * ry roi - w) 4)
         (Z.quot (2 * width roi + w) 2) (Z.quot (2 * height roi + w) 2).
Proof.
  rewrite enlarge_finite, !Qtrunc_quarter, !Qtrunc_half; reflexivity.
Qed.

Lemma eye_base_roi_size (a b c d e f : dlib_point) :
  0 <= width (eye_base_roi a b c d e f) /\
  0 <= height (eye_base_roi a b c d e f).
Proof. rewrite eye_base_roi_int; unfold Rect_of_points; simpl; lia. Qed.

Lemma six_parts (l : list dlib_point) (i : nat) (a b c d e f : dlib_point) :
  l !! i = Some a -> l !! (i + 1)%nat = Some b -> l !! (i + 2)%nat = Some c ->
  l !! (i + 3)%nat = Some d -> l !! (i + 4)%nat = Some e ->
  l !! (i + 5)%nat = Some f ->
  take 6 (drop i l) = [a; b; c; d; e; f].
Proof.
  intros Ha Hb Hc Hd He Hf; apply list_eq; intros k.
  destruct (decide (k < 6)%nat) as [Hk | Hk].
  - rewrite lookup_take_lt, lookup_drop by exact Hk.
    destruct k as [| [| [| [| [| [| k]]]]]]; simpl; try lia;
      rewrite ?Nat.add_0_r; assumption.
  - rewrite lookup_take_ge by lia.
    do 6 (destruct k as [| k]; [lia |]); reflexivity.
Qed.

(** What a successful [eyesROI] returns, in integers: the left region is the
    left base rectangle enlarged by a quarter of its width, the right region
    the right base rectangle enlarged by a quarter of the width of the left
    region, and each contour is its six landmarks minus the top-left corner
    of its region. *)
Lemma eyesROI_inv (face : full_object_detection)
    (leye reye : list Point) (lroi rroi : Rect) :
  eyesROI face = Some (leye, lroi, reye, rroi) ->
  exists lbase rbase : Rect,
    left_eye_base face = Some lbase /\
    right_eye_base face = Some rbase /\
    0 <= width lbase /\ 0 <= height lbase /\
    0 <= width rbase /\ 0 <= height rbase /\
    lroi = enlarge lbase (Fin (25 / 100 * inject_Z (width lbase))) /\
    rroi = enlarge rbase (Fin (25 / 100 * inject_Z (width lroi))) /\
    leye = eye_contour lroi (take 6 (drop 36 (parts face))) /\
    reye = eye_contour rroi (take 6 (drop 42 (parts face))).
Proof.
  intros Hroi; unfold eyesROI in Hroi; read_parts Hroi.
  exists (eye_base_roi d d0 d1 d2 d3 d4), (eye_base_roi d5 d6 d7 d8 d9 d10).
  split; [unfold left_eye_base;
          rewrite Hpart, Hpart0, Hpart1, Hpart2, Hpart3, Hpart4; reflexivity |].
  split; [unfold right_eye_base;
          rewrite Hpart5, Hpart6, Hpart7, Hpart8, Hpart9, Hpart10; reflexivity |].
  pose proof (eye_base_roi_size d d0 d1 d2 d3 d4) as [? ?].
  pose proof (eye_base_roi_size d5 d6 d7 d8 d9 d10) as [? ?].
  do 4 (split; [assumption |]).
  unfold part in *.
  rewrite (six_parts (parts face) 36 d d0 d1 d2 d3 d4) by assumption.
  rewrite (six_parts (parts face) 42 d5 d6 d7 d8 d9 d10) by assumption.
  cbv zeta in Hroi; rewrite !eye_margin in Hroi.
  injection Hroi as <- <- <- <-; repeat split.
Qed.

Lemma eyesROI_Some_length (face : full_object_detection) :
  is_Some (eyesROI face) -> (48 <= length (parts face))%nat.
Proof.
  intros [[[[leye lroi] reye] rroi] Hroi].
  unfold eyesROI in Hroi; read_parts Hroi.
  apply lookup_lt_Some in Hpart10; lia.
Qed.

(** X1. [eyesROI] reads landmarks 36 to 47 unchecked: it has a result exactly
    for a face with at least 48 points. *)
Theorem eyesROI_defined_iff (face : full_object_detection) :
  is_Some (eyesROI face) <-> (48 <= length (parts face))%nat.
Proof.
  split; [apply eyesROI_Some_length | apply eyesROI_is_Some].
Qed.

(** X2. Each contour has six points, and adding the top-left corner of its
    region back to point [i] gives landmark [36 + i] (left) or [42 + i]
    (right) of the face. *)
Theorem eyesROI_contour_round_trip (face : full_object_detection)
    (leye reye : list Point) (lroi rroi : Rect) :
  eyesROI face = Some (leye, lroi, reye, rroi) ->
  length leye = 6%nat /\ length reye = 6%nat /\
  (forall (i : nat) (p : Point),
      leye !! i = Some p ->
      part face (36 + i) = Some (mkPoint (px p + rx lroi) (py p + ry lroi))) /\
  (forall (i : nat) (p : Point),
      reye !! i = Some p ->
      part face (42 + i) = Some (mkPoint (px p + rx rroi) (py p + ry rroi))).
Proof.
  intros Hroi.
  assert (48 <= length (parts face))%nat as Hlen
    by (apply eyesROI_Some_length; eauto).
  destruct (eyesROI_inv _ _ _ _ _ Hroi)
    as (lb & rb & _ & _ & _ & _ & _ & _ & _ & _ & -> & ->).
  unfold eye_contour.
  change (@map dlib_point Point) with (@fmap list _ dlib_point Point).
  rewrite !length_fmap, !length_take, !length_drop.
  split; [lia |]; split; [lia |].
  split; intros i p Hp; rewrite list_lookup_fmap in Hp.
  all: destruct (decide (i < 6)%nat) as [Hi | Hi];
    [| rewrite lookup_take_ge in Hp by lia; discriminate].
  all: rewrite lookup_take_lt, lookup_drop in Hp by exact Hi.
  all: unfold part; destruct (parts face !! _) as [q |]; [| discriminate].
  all: injection Hp as <-; destruct q as [qx qy].
  all: unfold Point_sub, toCvI, tl; simpl; do 2 f_equal; lia.
Qed.

Lemma enlarge_quarter_fields (roi r : Rect) (w : Z) :
  r = enlarge roi (Fin (25 / 100 * inject_Z w)) ->
  rx r = Z.quot (4 * rx roi - w) 4 /\
  ry r = Z.quot (4 * ry roi - w) 4 /\
  width r = Z.quot (2 * width roi + w) 2 /\
  height r = Z.quot (2 * height roi + w) 2.
Proof. intros ->; rewrite enlarge_quarter; repeat split. Qed.

(** The integer facts behind a successful [eyesROI]. *)
Lemma eyesROI_fields (face : full_object_detection)
    (leye reye : list Point) (lroi rroi : Rect) :
  eyesROI face = Some (leye, lroi, reye, rroi) ->
  exists lbase rbase : Rect,
    left_eye_base face = Some lbase /\
    right_eye_base face = Some rbase /\
    (0 <= width lbase /\ 0 <= height lbase /\
     0 <= width rbase /\ 0 <= height rbase) /\
    (rx lroi = Z.quot (4 * rx lbase - width lbase) 4 /\
     ry lroi = Z.quot (4 * ry lbase - width lbase) 4 /\
     width lroi = Z.quot (2 * width lbase + width lbase) 2 /\
     height lroi = Z.quot (2 * height lbase + width lbase) 2) /\
    (rx rroi = Z.quot (4 * rx rbase - width lroi) 4 /\
     ry rroi = Z.quot (4 * ry rbase - width lroi) 4 /\
     width rroi = Z.quot (2 * width rbase + width lroi) 2 /\
     height rroi = Z.quot (2 * height rbase + width lroi) 2).
Proof.
  intros Hroi.
  destruct (eyesROI_inv _ _ _ _ _ Hroi)
    as (lb & rb & Hlb & Hrb & Hw & Hh & Hrw & Hrh & Hl & Hr & _ & _).
  exists lb, rb; split; [exact Hlb |]; split; [exact Hrb |].
  split; [auto |].
  split; [exact (enlarge_quarter_fields _ _ _ Hl)
         | exact (enlarge_quarter_fields _ _ _ Hr)].
Qed.

(** Truncating quotients of the enlargement, one fact at a time. *)
Lemma quot_grow (h w : Z) :
  0 <= h -> 0 <= w -> Z.quot (2 * h + w) 2 = h + Z.quot w 2.
Proof. lia. Qed.

Lemma quot_three_halves (w : Z) : Z.quot (2 * w + w) 2 = Z.quot (3 * w) 2.
Proof. f_equal; lia. Qed.

Lemma quot_half_nonneg (w : Z) : 0 <= w -> 0 <= Z.quot w 2.
Proof. lia. Qed.

Lemma quot_three_halves_zero (w : Z) :
  0 <= w -> (Z.quot (3 * w) 2 = 0 <-> w = 0).
Proof. lia. Qed.

Lemma quot_corner_le (x w : Z) : 0 <= w -> Z.quot (4 * x - w) 4 <= x.
Proof. lia. Qed.

Lemma quot_cover (x h w : Z) :
  0 <= h -> 0 <= w -> w <> 1 ->
  x + h <= Z.quot (4 * x - w) 4 + (h + Z.quot w 2).
Proof. lia. Qed.

Lemma left_eye_base_width (face : full_object_detection) (base : Rect)
    (a d : dlib_point) :
  left_eye_base face = Some base ->
  part face 36 = Some a -> part face 39 = Some d ->
  width base = Z.abs (px d - px a).
Proof.
  intros Hb Ha Hd; unfold left_eye_base in Hb; rewrite Ha, Hd in Hb.
  cbn [mbind option_bind] in Hb; read_parts Hb.
  injection Hb as <-; apply eye_base_roi_width.
Qed.

(** X3. The regions [eyesROI] returns never have a negative width or
    height, whatever the order of the landmarks; the left region has width
    0 exactly when landmarks 36 and 39 have the same x. *)
Theorem eyesROI_sizes_nonneg (face : full_object_detection)
    (leye reye : list Point) (lroi rroi : Rect) :
  eyesROI face = Some (leye, lroi, reye, rroi) ->
  0 <= width lroi /\ 0 <= height lroi /\
  0 <= width rroi /\ 0 <= height rroi /\
  (forall a d : dlib_point,
      part face 36 = Some a -> part face 39 = Some d ->
      (width lroi = 0 <-> px a = px d)).
Proof.
  intros Hroi.
  destruct (eyesROI_fields _ _ _ _ _ Hroi)
    as (lb & rb & Hlb & _ & (Hw & Hh & Hrw & Hrh)
        & (_ & _ & Hlw & Hlh) & (_ & _ & Hrw' & Hrh')).
  pose proof (quot_half_nonneg _ Hw) as Hq.
  rewrite quot_grow in Hlw, Hlh by assumption.
  assert (0 <= width lroi) as Hl0 by (rewrite Hlw; clear - Hw Hq; lia).
  pose proof (quot_half_nonneg _ Hl0) as Hq'.
  rewrite quot_grow in Hrw', Hrh' by assumption.
  split; [exact Hl0 |].
  split; [rewrite Hlh; clear - Hh Hq; lia |].
  split; [rewrite Hrw'; clear - Hrw Hq'; lia |].
  split; [rewrite Hrh'; clear - Hrh Hq'; lia |].
  intros a d Ha Hd.
  rewrite (left_eye_base_width face lb a d Hlb Ha Hd) in Hlw.
  rewrite Hlw; clear; lia.
Qed.

(** X4. The top-left corner of the enlarged left region is never to the
    right of or below that of the base rectangle; unless the base rectangle
    is exactly one pixel wide, the enlarged left region also reaches at
    least as far right and down, so it covers the base rectangle. *)
Theorem eyesROI_left_covers_base (face : full_object_detection)
    (leye reye : list Point) (lroi rroi : Rect) :
  eyesROI face = Some (leye, lroi, reye, rroi) ->
  exists base : Rect,
    left_eye_base face = Some base /\
    rx lroi <= rx base /\ ry lroi <= ry base /\
    (width base <> 1 ->
     rx base + width base <= rx lroi + width lroi /\
     ry base + height base <= ry lroi + height lroi).
Proof.
  intros Hroi.
  destruct (eyesROI_fields _ _ _ _ _ Hroi)
    as (lb & rb & Hlb & _ & (Hw & Hh & _ & _)
        & (Hx & Hy & Hlw & Hlh) & _).
  exists lb; split; [exact Hlb |].
  rewrite quot_grow in Hlw, Hlh by assumption.
  rewrite Hx, Hy, Hlw, Hlh.
  split; [apply quot_corner_le; exact Hw |].
  split; [apply quot_corner_le; exact Hw |].
  intros Hne; split; apply quot_cover; assumption.
Qed.

(** X5. The right region is the right base rectangle moved up and left by a
    quarter of the width of the (already enlarged) left region and grown by
    half of it, each cut to an integer toward zero. *)
Theorem eyesROI_right_region (face : full_object_detection)
    (leye reye : list Point) (lroi rroi : Rect) :
  eyesROI face = Some (leye, lroi, reye, rroi) ->
  exists lbase rbase : Rect,
    left_eye_base face = Some lbase /\
    right_eye_base face = Some rbase /\
    width lroi = Z.quot (3 * width lbase) 2 /\
    rx rroi = Z.quot (4 * rx rbase - width lroi) 4 /\
    ry rroi = Z.quot (4 * ry rbase - width lroi) 4 /\
    width rroi = width rbase + Z.quot (width lroi) 2 /\
    height rroi = height rbase + Z.quot (width lroi) 2.
Proof.
  intros Hroi.
  destruct (eyesROI_fields _ _ _ _ _ Hroi)
    as (lb & rb & Hlb & Hrb & (Hw & Hh & Hrw & Hrh)
        & (_ & _ & Hlw & _) & (Hx & Hy & Hrw' & Hrh')).
  exists lb, rb; split; [exact Hlb |]; split; [exact Hrb |].
  pose proof (quot_half_nonneg _ Hw) as Hq.
  assert (0 <= width lroi) as Hl0
    by (rewrite Hlw, quot_grow by assumption; clear - Hw Hq; lia).
  rewrite quot_three_halves in Hlw.
  rewrite quot_grow in Hrw', Hrh' by assumption.
  repeat split; assumption.
Qed.

Lemma eyesROI_sizes_nonneg_witness :
  exists (leye reye : list Point) (lroi rroi : Rect),
    eyesROI sample_face = Some (leye, lroi, reye, rroi) /\
    0 <= width lroi /\ 0 <= height rroi.
Proof.
  do 4 eexists; split; [vm_compute; reflexivity |].
  edestruct (eyesROI_sizes_nonneg sample_face) as (Hw & _ & _ & Hh & _);
    [vm_compute; reflexivity |].
  split; [exact Hw | exact Hh].
Defined.

Lemma eyesROI_contour_round_trip_witness :
  exists (leye reye : list Point) (lroi rroi : Rect),
    eyesROI sample_face = Some (leye, lroi, reye, rroi) /\
    length leye = 6%nat /\ length reye = 6%nat.
Proof.
  do 4 eexists; split; [vm_compute; reflexivity |].
  edestruct (eyesROI_contour_round_trip sample_face) as (Hl & Hr & _);
    [vm_compute; reflexivity |].
  split; [exact Hl | exact Hr].
Defined.

Lemma eyesROI_left_covers_base_witness :
  exists (leye reye : list Point) (lroi rroi base : Rect),
    eyesROI sample_face = Some (leye, lroi, reye, rroi) /\
    left_eye_base sample_face = Some base /\
    rx lroi <= rx base /\ ry lroi <= ry base.
Proof.
  do 4 eexists.
  edestruct (eyesROI_left_covers_base sample_face) as (base & Hb & Hx & Hy & _);
    [vm_compute; reflexivity |].
  exists base; split; [vm_compute; reflexivity |].
  split; [exact Hb |]; split; assumption.
Defined.

Lemma eyesROI_right_region_witness :
  exists (leye reye : list Point) (lroi rroi rbase : Rect),
    eyesROI sample_face = Some (leye, lroi, reye, rroi) /\
    right_eye_base sample_face = Some rbase /\
    width rroi = width rbase + Z.quot (width lroi) 2.
Proof.
  do 4 eexists.
  edestruct (eyesROI_right_region sample_face)
    as (lb & rb & _ & Hrb & _ & _ & _ & Hw & _);
    [vm_compute; reflexivity |].
  exists rb; split; [vm_compute; reflexivity |]; split; [exact Hrb | exact Hw].
Defined.

(** ** Pupil normalisation: where the result is finite *)

Lemma Qeq_bool_int_zero (k : Z) : Qeq_bool (inject_Z k) 0 = Z.eqb k 0.
Proof. exact (feqb_int k 0). Qed.

Lemma fdiv_int_finite (a : Q) (k : Z) :
  is_finite (Fin a / int_to_float k)%F = negb (Z.eqb k 0).
Proof.
  unfold fdiv, int_to_float; rewrite Qeq_bool_int_zero.
  destruct (Z.eqb k 0); [| reflexivity].
  destruct (Qeq_bool a 0); [reflexivity |].
  destruct (Qle_bool 0 a); reflexivity.
Qed.

Lemma quot_two_zero (w : Z) : Z.quot w 2 = 0 <-> Z.abs w < 2.
Proof. lia. Qed.

(** X6. No clamping and no test of the divisor: for a finite pupil the
    normalised x is finite exactly when the region is at least 2 pixels
    wide, and the normalised y exactly when it is at least 2 pixels high;
    a narrower region makes the code divide by [width / 2 = 0]. *)
Theorem pupil_relative_finite_iff (p : Point2f) (roi : Rect) :
  Point2f_finite p = true ->
  (is_finite (px (pupil_relative p roi)) = true <-> 2 <= Z.abs (width roi)) /\
  (is_finite (py (pupil_relative p roi)) = true <-> 2 <= Z.abs (height roi)).
Proof.
  destruct p as [[a | | |] [b | | |]]; try discriminate; intros _.
  unfold pupil_relative, Point2f_sub, Point2f_scale, Point_to_Point2f,
    Point_sub, br, tl; cbn [px py rx ry width height].
  unfold int_to_float at 1 3; cbn [fsub fopp fadd fmul].
  rewrite !fdiv_int_finite.
  pose proof (quot_two_zero (width roi)) as Hw.
  pose proof (quot_two_zero (height roi)) as Hh.
  split.
  - destruct (Z.eqb_spec (Z.quot (width roi) 2) 0) as [E | E]; simpl;
      split; intros Hx; try discriminate; try reflexivity.
    + apply Hw in E; clear - E Hx; lia.
    + destruct (Z_lt_ge_dec (Z.abs (width roi)) 2) as [Hlt | Hge];
        [apply Hw in Hlt; contradiction | clear - Hge; lia].
  - destruct (Z.eqb_spec (Z.quot (height roi) 2) 0) as [E | E]; simpl;
      split; intros Hx; try discriminate; try reflexivity.
    + apply Hh in E; clear - E Hx; lia.
    + destruct (Z_lt_ge_dec (Z.abs (height roi)) 2) as [Hlt | Hge];
        [apply Hh in Hlt; contradiction | clear - Hge; lia].
Qed.

Lemma pupil_relative_finite_iff_witness :
  Point2f_finite (mkPoint (Fin 3) (Fin 1)) = true /\
  (is_finite (px (pupil_relative (mkPoint (Fin 3) (Fin 1)) (mkRect 0 0 1 4)))
   = true <-> 2 <= Z.abs 1).
Proof.
  split; [reflexivity |].
  apply (pupil_relative_finite_iff (mkPoint (Fin 3) (Fin 1)) (mkRect 0 0 1 4)).
  reflexivity.
Defined.

Lemma quot_degenerate (w : Z) :
  0 <= w <= 1 -> Z.quot (Z.quot (3 * w) 2) 2 = 0.
Proof. lia. Qed.

Section PupilProperties.
Context `{C : Collaborators}.

Lemma pupilsRelativePose_defined_iff (image : Mat)
    (face : full_object_detection) :
  is_Some (pupilsRelativePose image face) <-> (48 <= length (parts face))%nat.
Proof.
  split; [| apply pupilsRelativePose_is_Some].
  intros [[l r] Hp]; apply eyesROI_Some_length.
  unfold pupilsRelativePose in Hp.
  destruct (eyesROI face); [eauto | discriminate].
Qed.

(** X7. A degenerate left eye is not rejected: when landmarks 36 and 39 are
    at most one pixel apart in x, the left region is 0 or 1 pixel wide and
    the normalised left pupil has a non-finite x, whatever the pupil locator
    reports. *)
Theorem pupilsRelativePose_degenerate_left (image : Mat)
    (face : full_object_detection) (l r : Point2f) (a d : dlib_point) :
  pupilsRelativePose image face = Some (l, r) ->
  part face 36 = Some a -> part face 39 = Some d ->
  Z.abs (px d - px a) <= 1 ->
  is_finite (px l) = false.
Proof.
  intros Hp Ha Hd Hclose; unfold pupilsRelativePose in Hp.
  destruct (eyesROI face) as [[[[leye lroi] reye] rroi] |] eqn:Hroi;
    [| discriminate].
  cbn [mbind option_bind] in Hp; injection Hp as <- _.
  destruct (eyesROI_fields _ _ _ _ _ Hroi)
    as (lb & rb & Hlb & _ & _ & (_ & _ & Hlw & _) & _).
  rewrite quot_three_halves in Hlw.
  rewrite (left_eye_base_width face lb a d Hlb Ha Hd) in Hlw.
  assert (Z.quot (width lroi) 2 = 0) as Hz
    by (rewrite Hlw; apply quot_degenerate; clear - Hclose; lia).
  unfold pupil_relative; cbn [px]; rewrite Hz.
  apply fdiv_by_zero; reflexivity.
Qed.

End PupilProperties.

Lemma pupilsRelativePose_degenerate_left_witness :
  exists l r : Point2f,
    @pupilsRelativePose sample_collaborators sample_image narrow_eye_face
    = Some (l, r) /\
    part narrow_eye_face 36 = Some (mkPoint 100 100) /\
    part narrow_eye_face 39 = Some (mkPoint 101 100) /\
    is_finite (px l) = false.
Proof.
  do 2 eexists; split; [vm_compute; reflexivity |].
  split; [reflexivity |]; split; [reflexivity |].
  eapply (@pupilsRelativePose_degenerate_left sample_collaborators sample_image
            narrow_eye_face _ _ (mkPoint 100 100) (mkPoint 101 100));
    [vm_compute; reflexivity | reflexivity | reflexivity | vm_compute; discriminate].
Defined.

(** ** Frames: what [update] needs and what it leaves *)

Section UpdateProperties.
Context `{H : Header} `{C : Collaborators}.

Lemma update_inv (image : Mat) (s s' : HeadPoseEstimation) :
  update image s = Some s' ->
  focalLength s' = focalLength s /\
  current_image s' = image /\
  faces s' = detector image /\
  shapes s' = pose_model image <$> detector image.
Proof.
  unfold update; intros Hup.
  destruct (feqb (opticalCenterX s) (int_to_float (-1))); cbv zeta in Hup;
    destruct (mapM _ _); try discriminate;
    cbn [mbind option_bind] in Hup; injection Hup as <-; repeat split.
Qed.

(** X8. [update] reads landmarks 36 to 47 of every landmark set it has just
    stored (the pupil loop): it has a defined result exactly when the
    regressor returns at least 48 points for every detected face; with no
    detected face it always has one. *)
Theorem update_defined_iff (image : Mat) (s : HeadPoseEstimation) :
  is_Some (update image s) <->
  Forall (fun r => (48 <= length (parts (pose_model image r)))%nat)
         (detector image).
Proof.
  assert (is_Some (update image s) <->
          is_Some (mapM (pupilsRelativePose image)
                        (pose_model image <$> detector image))) as ->.
  { unfold update.
    destruct (feqb (opticalCenterX s) (int_to_float (-1))); cbv zeta;
      destruct (mapM _ _); cbn [mbind option_bind];
      split; intros [x Hx]; try discriminate; eauto. }
  rewrite mapM_is_Some, Forall_fmap.
  apply Forall_iff; intros r; simpl; apply pupilsRelativePose_defined_iff.
Qed.

Lemma updates_snoc (images : list Mat) (image : Mat) (s : HeadPoseEstimation) :
  updates (images ++ [image]) s = updates images s ≫= update image.
Proof.
  revert s; induction images as [| i rest IH]; intros s; simpl.
  - destruct (update image s); reflexivity.
  - destruct (update i s) as [s1 |]; simpl; [apply IH | reflexivity].
Qed.

Lemma updates_focalLength (images : list Mat) (s s' : HeadPoseEstimation) :
  updates images s = Some s' -> focalLength s' = focalLength s.
Proof.
  revert s; induction images as [| i rest IH]; intros s Hrun; simpl in Hrun.
  - injection Hrun as <-; reflexivity.
  - destruct (update i s) as [s1 |] eqn:Hup; [| discriminate].
    simpl in Hrun; rewrite (IH s1 Hrun).
    apply (update_inv i s s1 Hup).
Qed.

(** X9. Frames replace, they do not merge: after any run of [update] calls
    the stored image, faces and landmark sets are those of the last image
    alone, one landmark set per face in the detector's order, and the focal
    length is the one the run started with. *)
Theorem updates_keep_last_frame (images : list Mat) (image : Mat)
    (s s' : HeadPoseEstimation) :
  updates (images ++ [image]) s = Some s' ->
  focalLength s' = focalLength s /\
  current_image s' = image /\
  faces s' = detector image /\
  length (shapes s') = length (faces s') /\
  (forall (i : nat) (r : rectangle),
      faces s' !! i = Some r -> shapes s' !! i = Some (pose_model image r)).
Proof.
  intros Hrun.
  pose proof (updates_focalLength _ _ _ Hrun) as Hf.
  rewrite updates_snoc in Hrun.
  destruct (updates images s) as [s1 |]; [| discriminate].
  simpl in Hrun; destruct (update_inv _ _ _ Hrun) as (_ & Hi & Hfa & Hsh).
  repeat split; try assumption.
  - rewrite Hsh, Hfa; apply length_fmap.
  - intros i r Hr; rewrite Hsh, list_lookup_fmap, <- Hfa, Hr; reflexivity.
Qed.

(** X10. After any run of [update] calls on a new estimator (regressor
    yielding 68 points, features indexed below 68), [poses] has a result
    with one pose per face, and entry [i] is [pose(i)]. *)
Theorem poses_one_per_face (focal : float) (images : list Mat)
    (s : HeadPoseEstimation) :
  regressor_contract ->
  (forall f, (feature_index f < 68)%nat) ->
  updates images (HeadPoseEstimation_new focal) = Some s ->
  exists l : list head_pose,
    poses s = Some l /\
    length l = length (faces s) /\
    (forall i : nat, (i < length (faces s))%nat -> l !! i = pose s i).
Proof.
  intros Hreg Hf Hrun.
  assert (aligned s) as Hal.
  { apply (updates_aligned images (HeadPoseEstimation_new focal) s Hreg);
      [split; [reflexivity | constructor] | exact Hrun]. }
  destruct (poses_defined s Hal Hf) as (l & Hl & Hlen).
  exists l; split; [exact Hl |]; split; [exact Hlen |].
  intros i Hi; unfold poses in Hl; apply mapM_Some in Hl.
  destruct (Forall2_lookup_l _ _ _ i i Hl) as (P & HP & Hpose).
  { apply lookup_seq_lt; exact Hi. }
  rewrite HP, Hpose; reflexivity.
Qed.

(** X11. [pose] looks at nothing but the focal length, the optical centre
    and the landmark set it is asked for: two estimators that agree on
    those give the same result, whatever other faces they hold. *)
Theorem pose_depends_on_own_shape (s1 s2 : HeadPoseEstimation) (i j : nat) :
  focalLength s1 = focalLength s2 ->
  opticalCenter s1 = opticalCenter s2 ->
  shapes s1 !! i = shapes s2 !! j ->
  pose s1 i = pose s2 j.
Proof.
  intros Hf Hc Hs; injection Hc as Hx Hy.
  assert (forall f, coordsOf s1 i f = coordsOf s2 j f) as Hco
    by (intros f; unfold coordsOf; rewrite Hs; reflexivity).
  assert (projection s1 = projection s2) as Hp
    by (unfold projection; rewrite Hf, Hx, Hy; reflexivity).
  unfold pose, pose_solver_args; rewrite !Hco, Hp; reflexivity.
Qed.

End UpdateProperties.

Lemma updates_keep_last_frame_witness :
  @updates sample_collaborators ([mkMat 100 200 []] ++ [sample_image])
    (HeadPoseEstimation_new (Fin 500)) = Some
      (mkEstimator (Fin 500) (Fin 100) (Fin 50) sample_image
                   [mkRectangle 0 0 640 480] [sample_face]) /\
  current_image
    (mkEstimator (Fin 500) (Fin 100) (Fin 50) sample_image
                 [mkRectangle 0 0 640 480] [sample_face]) = sample_image.
Proof.
  split; [vm_compute; reflexivity |].
  apply (@updates_keep_last_frame sample_collaborators [mkMat 100 200 []]
           sample_image (HeadPoseEstimation_new (Fin 500))).
  vm_compute; reflexivity.
Defined.

Lemma poses_one_per_face_witness :
  @updates sample_collaborators [sample_image] (HeadPoseEstimation_new (Fin 500))
  = Some sample_estimator /\
  exists l : list head_pose,
    @poses sample_header sample_collaborators sample_estimator = Some l /\
    length l = 1%nat.
Proof.
  split; [vm_compute; reflexivity |].
  destruct (@poses_one_per_face sample_header sample_collaborators (Fin 500)
              [sample_image] sample_estimator sample_regressor_contract
              sample_feature_index_lt) as (l & Hl & Hlen & _);
    [vm_compute; reflexivity |].
  exists l; split; [exact Hl | exact Hlen].
Defined.

Lemma pose_depends_on_own_shape_witness :
  shapes sample_estimator !! 0%nat = shapes two_face_estimator !! 1%nat /\
  @pose sample_header sample_collaborators sample_estimator 0
  = @pose sample_header sample_collaborators two_face_estimator 1.
Proof.
  split; [reflexivity |].
  apply (@pose_depends_on_own_shape sample_header sample_collaborators
           sample_estimator two_face_estimator 0%nat 1%nat); reflexivity.
Defined.

(** ** Line intersection *)

Lemma flt_abs_eps (q : Q) :
  flt (fabs (Fin q)) intersection_eps = true <-> (Qabs q < 1 # 100000000)%Q.
Proof.
  unfold flt, fabs, intersection_eps, Qlt_bool.
  destruct (Qle_bool (1 # 100000000) (Qabs q)) eqn:E; simpl.
  - apply Qle_bool_iff in E; split; [discriminate |].
    intros Hlt; exfalso; exact (Qlt_not_le _ _ Hlt E).
  - split; [intros _ | reflexivity].
    apply Qnot_le_lt; intros Hle; apply Qle_bool_iff in Hle; congruence.
Qed.

(** X12. [intersection] returns [false] exactly when the cross product of
    the two directions is a finite number of magnitude below 1e-8, and then
    leaves [r] as it was; a NaN or infinite cross product is not caught. *)
Theorem intersection_false_iff (o1 p1 o2 p2 r : Point2f) :
  ((intersection o1 p1 o2 p2 r).1 = false <->
   exists q : Q, intersection_cross o1 p1 o2 p2 = Fin q /\
                 (Qabs q < 1 # 100000000)%Q) /\
  ((intersection o1 p1 o2 p2 r).1 = false ->
   (intersection o1 p1 o2 p2 r).2 = r).
Proof.
  unfold intersection; fold (intersection_cross o1 p1 o2 p2).
  destruct (intersection_cross o1 p1 o2 p2) as [q | | |] eqn:Hc.
  - destruct (flt (fabs (Fin q)) intersection_eps) eqn:E; simpl.
    + split; [| reflexivity].
      split; [intros _; exists q; split; [reflexivity | apply flt_abs_eps, E]
             | reflexivity].
    + split; [| discriminate].
      split; [discriminate |].
      intros (q' & Hq' & Hlt); injection Hq' as <-.
      apply flt_abs_eps in Hlt; congruence.
  - simpl; split; [split; [discriminate | intros (q & Hq & _); discriminate]
                  | discriminate].
  - simpl; split; [split; [discriminate | intros (q & Hq & _); discriminate]
                  | discriminate].
  - simpl; split; [split; [discriminate | intros (q & Hq & _); discriminate]
                  | discriminate].
Qed.

(** X13. Parallel lines, and a "line" whose two points coincide, have cross
    product zero: [intersection] returns [false] and does not touch [r]. *)
Theorem intersection_parallel (o1 p1 o2 p2 r : Point2f) :
  feqb (intersection_cross o1 p1 o2 p2) (Fin 0) = true ->
  intersection o1 p1 o2 p2 r = (false, r).
Proof.
  intros Hz; unfold intersection; fold (intersection_cross o1 p1 o2 p2).
  destruct (intersection_cross o1 p1 o2 p2) as [q | | |]; try discriminate.
  assert (flt (fabs (Fin q)) intersection_eps = true) as ->; [| reflexivity].
  apply flt_abs_eps; simpl in Hz; apply Qeq_bool_iff in Hz.
  rewrite Hz; reflexivity.
Qed.

Lemma intersection_parallel_witness :
  feqb (intersection_cross (mkPoint (Fin 0) (Fin 0)) (mkPoint (Fin 2) (Fin 1))
                           (mkPoint (Fin 0) (Fin 3)) (mkPoint (Fin 4) (Fin 5)))
       (Fin 0) = true /\
  intersection (mkPoint (Fin 0) (Fin 0)) (mkPoint (Fin 2) (Fin 1))
               (mkPoint (Fin 0) (Fin 3)) (mkPoint (Fin 4) (Fin 5))
               (mkPoint (Fin 7) (Fin 7))
  = (false, mkPoint (Fin 7) (Fin 7)).
Proof.
  split; [reflexivity |].
  apply intersection_parallel; reflexivity.
Defined.

Lemma fmul_NaN (a : float) : (a * NaN)%F = NaN.
Proof. destruct a; reflexivity. Qed.

Lemma fdiv_NaN (a : float) : (a / NaN)%F = NaN.
Proof. destruct a; reflexivity. Qed.

(** X14. A NaN cross product passes the test [abs(cross) < 1e-8]:
    [intersection] then returns [true] with both coordinates of the point
    NaN. *)
Theorem intersection_nan_not_caught (o1 p1 o2 p2 r : Point2f) :
  is_nan (intersection_cross o1 p1 o2 p2) = true ->
  (intersection o1 p1 o2 p2 r).1 = true /\
  px (intersection o1 p1 o2 p2 r).2 = NaN /\
  py (intersection o1 p1 o2 p2 r).2 = NaN.
Proof.
  intros Hn; unfold intersection; fold (intersection_cross o1 p1 o2 p2).
  destruct (intersection_cross o1 p1 o2 p2); try discriminate.
  cbn [fabs flt fst snd]; unfold Point2f_add, Point2f_scale; cbn [px py].
  rewrite fdiv_NaN, !fmul_NaN, !fadd_NaN; repeat split.
Qed.

Lemma intersection_nan_not_caught_witness :
  is_nan (intersection_cross (mkPoint NaN (Fin 0)) (mkPoint (Fin 2) (Fin 1))
                             (mkPoint (Fin 0) (Fin 3)) (mkPoint (Fin 4) (Fin 4)))
  = true /\
  (intersection (mkPoint NaN (Fin 0)) (mkPoint (Fin 2) (Fin 1))
                (mkPoint (Fin 0) (Fin 3)) (mkPoint (Fin 4) (Fin 4))
                (mkPoint (Fin 7) (Fin 7))).1 = true.
Proof.
  split; [reflexivity |].
  apply intersection_nan_not_caught; reflexivity.
Defined.




(** ** The gaze point: the regular case *)

Section GazeRegular.
Context `{C : Collaborators}.



End GazeRegular.



(** ** The base rectangle of an eye *)

